(** * Ahrefs Top Pages Analyzer: the time-series pipeline of [app.py]

    A shallow embedding of the analysis script: derived rate columns,
    moving averages, ranking-state classification, the summary averages
    and the ranking-state report, together with the resampling step and
    the cached smoothing call.

    Numbers.  A numeric cell of the dataframe is a float64, or an int64
    where a column of the file holds whole numbers only.  The embedding
    has one type for both.  It keeps the IEEE-754 special values that
    pandas and numpy produce and test for ([NaN], the two infinities)
    and computes on finite values with exact rationals: rounding,
    overflow, the wrap-around of int64 and the sign of zero are not
    modelled.  Finite results are given in exact arithmetic.  Where
    rounding, overflow or wrap-around could change what is null, what
    is finite or what a sum is, the statement carries a bound under
    which it cannot: counts up to 2^53, which int64 and float64 both
    hold exactly, or finite values of a magnitude whose sums do not
    overflow.

    Dates.  A timestamp is a day number (days since 1970-01-01). *)

From Stdlib Require Import QArith Qcanon ZArith Lia.
From stdpp Require Import gmap strings list fin_maps pretty sorting.

Local Open Scope Z_scope.
Local Open Scope Qc_scope.

(** ** float64 values *)

Inductive f64 : Type :=
  | NaN
  | PInf
  | NInf
  | Fin (q : Qc).

#[global] Instance f64_eq_dec : EqDecision f64.
Proof. solve_decision. Defined.

#[global] Instance f64_inhabited : Inhabited f64 := populate NaN.

Definition num (z : Z) : f64 := Fin (Qc_of_Z z).

Definition isna (x : f64) : bool :=
  match x with NaN => true | _ => false end.

Definition isinf (x : f64) : bool :=
  match x with PInf | NInf => true | _ => false end.

Definition isfinite (x : f64) : bool :=
  match x with Fin _ => true | _ => false end.

(** Sign of a value that is not NaN; a zero counts as [Eq]. *)
Definition f64_sign (x : f64) : comparison :=
  match x with
  | NaN => Eq
  | PInf => Gt
  | NInf => Lt
  | Fin q => q ?= 0
  end.

Definition inf_of_sign (c : comparison) : f64 :=
  match c with Gt => PInf | Lt => NInf | Eq => NaN end.

Definition sign_mul (a b : comparison) : comparison :=
  match a, b with
  | Eq, _ | _, Eq => Eq
  | Gt, c => c
  | Lt, c => CompOpp c
  end.

Definition f64_neg (x : f64) : f64 :=
  match x with
  | NaN => NaN
  | PInf => NInf
  | NInf => PInf
  | Fin q => Fin (- q)
  end.

Definition f64_add (x y : f64) : f64 :=
  match x, y with
  | NaN, _ | _, NaN => NaN
  | PInf, NInf | NInf, PInf => NaN
  | PInf, _ | _, PInf => PInf
  | NInf, _ | _, NInf => NInf
  | Fin a, Fin b => Fin (a + b)
  end.

Definition f64_sub (x y : f64) : f64 := f64_add x (f64_neg y).

Definition f64_mul (x y : f64) : f64 :=
  match x, y with
  | NaN, _ | _, NaN => NaN
  | Fin a, Fin b => Fin (a * b)
  | _, _ => inf_of_sign (sign_mul (f64_sign x) (f64_sign y))
  end.

(** Division never raises: a zero divisor gives an infinity of the sign
    of the dividend, and [0 / 0] gives NaN. *)
Definition f64_div (x y : f64) : f64 :=
  match x, y with
  | NaN, _ | _, NaN => NaN
  | Fin a, Fin b =>
      match b ?= 0 with
      | Eq => inf_of_sign (a ?= 0)
      | _ => Fin (a / b)
      end
  | Fin _, _ => Fin 0
  | _, Fin b =>
      match b ?= 0 with Lt => f64_neg x | _ => x end
  | _, _ => NaN
  end.

(** [x > y]; any comparison with NaN is false. *)
Definition f64_gt (x y : f64) : bool :=
  match x, y with
  | NaN, _ | _, NaN => false
  | PInf, PInf => false
  | PInf, _ => true
  | _, PInf => false
  | NInf, _ => false
  | Fin _, NInf => true
  | Fin a, Fin b => match a ?= b with Gt => true | _ => false end
  end.

(** ** Series: the pandas and numpy operations the script uses *)

Abbreviation series := (list f64).

(** [s.shift(1)] *)
Definition shift (xs : series) : series := take (length xs) (NaN :: xs).

(** Element-wise arithmetic of two series over the same index. *)
Definition series_add (xs ys : series) : series := zip_with f64_add xs ys.
Definition series_sub (xs ys : series) : series := zip_with f64_sub xs ys.
Definition series_div (xs ys : series) : series := zip_with f64_div xs ys.

(** [s * 100] and [s - 1] *)
Definition times100 (xs : series) : series := (λ x, f64_mul x (num 100)) <$> xs.
Definition minus1 (xs : series) : series := (λ x, f64_sub x (num 1)) <$> xs.

(** [s.diff()] *)
Definition diff (xs : series) : series := series_sub xs (shift xs).

(** [s.fillna(v)] *)
Definition fillna (v : f64) (xs : series) : series :=
  (λ x, if isna x then v else x) <$> xs.

(** [s.replace({0: np.nan})] *)
Definition replace_zero_nan (xs : series) : series :=
  (λ x, match x with
        | Fin q => match q ?= 0 with Eq => NaN | _ => x end
        | _ => x
        end) <$> xs.

(** [s.dropna()] *)
Definition dropna (xs : series) : series := filter (λ x, isna x = false) xs.

(** [s.ffill()], the padding [pct_change] applies before dividing. *)
Fixpoint ffill_from (last : f64) (xs : series) : series :=
  match xs with
  | [] => []
  | x :: xs' =>
      let y := if isna x then last else x in
      y :: ffill_from y xs'
  end.

Definition ffill (xs : series) : series := ffill_from NaN xs.

(** [s.pct_change()]: [data / data.shift(1) - 1] on the padded data. *)
Definition pct_change (xs : series) : series :=
  let data := ffill xs in
  minus1 (series_div data (shift data)).

(** Sum of a list of values. *)
Definition f64_sum (xs : series) : f64 := foldr f64_add (Fin 0) xs.

(** *** Rolling mean

    [s.rolling(window=W).mean()].  pandas first turns the infinities of
    the input into NaN, then, for each row [i], takes the rows
    [max(0, i-W+1) .. i], counts the observations that are not NaN and
    returns their mean when there are at least [min_periods] of them
    (and at least one), NaN otherwise.  For an integer window
    [min_periods] defaults to the window size.

    The mean is taken here in exact arithmetic, window by window.
    pandas keeps one compensated running sum in float64 and moves it
    from window to window, so a finite result of the code can differ
    from this mean in the last place, and two equal windows can give
    two results that differ so.  Which outputs are null is the same. *)

Definition prep_values (xs : series) : series :=
  (λ x, if isinf x then NaN else x) <$> xs.

Definition window_at (W : nat) (xs : series) (i : nat) : series :=
  take (S i - (S i - W)) (drop (S i - W) xs).

Definition calc_mean (minp : nat) (win : series) : f64 :=
  let obs := dropna win in
  let nobs := length obs in
  if bool_decide (minp ≤ nobs)%nat && bool_decide (0 < nobs)%nat
  then f64_div (f64_sum obs) (num (Z.of_nat nobs))
  else NaN.

Definition roll_mean (W minp : nat) (xs : series) : series :=
  let values := prep_values xs in
  (λ i, calc_mean minp (window_at W values i)) <$> seq 0 (length xs).

Definition rolling_mean (W : nat) (xs : series) : series := roll_mean W W xs.

(** [np.average(a)] without weights is [a.mean()]: NaN for an empty
    array (numpy warns, it does not raise). *)
Definition np_average (xs : series) : f64 :=
  match xs with
  | [] => NaN
  | _ => f64_div (f64_sum xs) (num (Z.of_nat (length xs)))
  end.

(** ** Rate calculator (lines 68-75) *)

(** [df[page_col].diff().fillna(0)] *)
Definition pages_added (p : series) : series := fillna (num 0) (diff p).

(** [pa / (p.shift(1) + pa).replace({0: np.nan}) * 100].  In exact
    arithmetic the denominator is the page count of the period; in
    float64 it is for page counts up to 2^53. *)
Definition page_change_rate (pa p : series) : series :=
  times100 (series_div pa (replace_zero_nan (series_add (shift p) pa))).

(** [df[traffic_col] / df[page_col]] *)
Definition traffic_per_page (t p : series) : series := series_div t p.

(** [df[traffic_col].pct_change() * 100] *)
Definition traffic_change_rate (t : series) : series := times100 (pct_change t).

(** ** State classifier (line 85) *)

Inductive label : Type := Positive | Negative.

#[global] Instance label_eq_dec : EqDecision label.
Proof. solve_decision. Defined.

(** [np.where(ma.diff().fillna(0) > 0, 'Positive', 'Negative')] *)
Definition ranking_state (ma : series) : list label :=
  (λ d, if f64_gt d (num 0) then Positive else Negative)
    <$> fillna (num 0) (diff ma).

(** ** Resampler (lines 55-65)

    The three columns the user selects, one record per raw row. *)

Record raw_row : Type := RawRow {
  r_date : Z;
  r_pages : f64;
  r_traffic : f64;
}.

#[global] Instance raw_row_eq_dec : EqDecision raw_row.
Proof. solve_decision. Defined.

Inductive date_frame : Type := Daily | Weekly | Monthly.

(** Proleptic Gregorian calendar on day numbers. *)
Definition days_from_civil (y m d : Z) : Z :=
  let y' := if (m <=? 2)%Z then (y - 1)%Z else y in
  let era := (y' / 400)%Z in
  let yoe := (y' - era * 400)%Z in
  let mp := if (m <=? 2)%Z then (m + 9)%Z else (m - 3)%Z in
  let doy := ((153 * mp + 2) / 5 + d - 1)%Z in
  let doe := (yoe * 365 + yoe / 4 - yoe / 100 + doy)%Z in
  (era * 146097 + doe - 719468)%Z.

Definition civil_from_days (z : Z) : Z * Z * Z :=
  let z := (z + 719468)%Z in
  let era := (z / 146097)%Z in
  let doe := (z - era * 146097)%Z in
  let yoe := ((doe - doe / 1460 + doe / 36524 - doe / 146096) / 365)%Z in
  let doy := (doe - (365 * yoe + yoe / 4 - yoe / 100))%Z in
  let mp := ((5 * doy + 2) / 153)%Z in
  let d := (doy - (153 * mp + 2) / 5 + 1)%Z in
  let m := if (mp <? 10)%Z then (mp + 3)%Z else (mp - 9)%Z in
  let y := (yoe + era * 400)%Z in
  (if (m <=? 2)%Z then (y + 1)%Z else y, m, d).

(** ['W-Mon']: weeks that end on a Monday, closed and labelled on the
    right.  Day 4 (1970-01-05) is a Monday. *)
Definition week_ordinal (d : Z) : Z := ((d - 4 + 6) / 7)%Z.
Definition week_label (k : Z) : Z := (4 + 7 * k)%Z.

(** ['M']: calendar months, labelled by their last day. *)
Definition month_ordinal (d : Z) : Z :=
  let '(y, m, _) := civil_from_days d in (12 * y + (m - 1))%Z.
Definition month_label (k : Z) : Z :=
  (days_from_civil ((k + 1) / 12) ((k + 1) mod 12 + 1) 1 - 1)%Z.

(** The sum of a bin skips NaN; an empty bin sums to 0.  The sum is
    exact; the code's sum of an int64 column wraps around beyond 2^63
    and that of a float64 column rounds beyond 2^53. *)
Definition bin_sum (xs : series) : f64 := f64_sum (dropna xs).

(** The first and the last bin that hold a row. *)
Definition ordinal_range (ordinal : Z → Z) (rows : list raw_row)
  : option (Z * Z) :=
  match rows with
  | [] => None
  | r :: rest =>
      let k0 := ordinal (r_date r) in
      Some (foldr (λ r' k, Z.min (ordinal (r_date r')) k) k0 rest,
            foldr (λ r' k, Z.max (ordinal (r_date r')) k) k0 rest)
  end.

(** The record of bin [k]: its label and the sums of its rows. *)
Definition bin_record (ordinal label : Z → Z) (rows : list raw_row) (k : Z)
  : raw_row :=
  let bin := filter (λ r, ordinal (r_date r) = k) rows in
  RawRow (label k) (bin_sum (r_pages <$> bin)) (bin_sum (r_traffic <$> bin)).

(** [df.resample(rule, on=date_col).sum().reset_index()]: one record for
    every bin from the bin of the earliest row to the bin of the latest
    row.  Without rows there is no record here; the code's [resample]
    raises on an empty selection, so the statements about resampling
    are about at least one row. *)
Definition resample_sum (ordinal label : Z → Z) (rows : list raw_row)
  : list raw_row :=
  match ordinal_range ordinal rows with
  | None => []
  | Some (lo, hi) => bin_record ordinal label rows <$> seqZ lo (hi - lo + 1)
  end.

(** [df.sort_values(by=date_col)].  Rows of one date come out in the
    order this sort leaves them; the code's sort is not stable either,
    and no statement depends on that order. *)
Definition date_le (a b : raw_row) : Prop := (r_date a ≤ r_date b)%Z.

#[global] Instance date_le_dec : RelDecision date_le.
Proof. intros a b. unfold date_le. apply _. Defined.

#[global] Instance date_le_total : Total date_le.
Proof. intros a b. unfold date_le. lia. Qed.

#[global] Instance date_le_trans : Transitive date_le.
Proof. intros a b c. unfold date_le. lia. Qed.

Definition sort_by_date (rows : list raw_row) : list raw_row :=
  merge_sort date_le rows.

(** Line 57: the rows inside the selected date range. *)
Definition select_range (start_date end_date : Z) (rows : list raw_row)
  : list raw_row :=
  filter (λ r, (start_date ≤ r_date r)%Z ∧ (r_date r ≤ end_date)%Z) rows.

Definition ordinal_of (frame : date_frame) : Z → Z :=
  match frame with
  | Daily => id
  | Weekly => week_ordinal
  | Monthly => month_ordinal
  end.

Definition label_of (frame : date_frame) : Z → Z :=
  match frame with
  | Daily => id
  | Weekly => week_label
  | Monthly => month_label
  end.

(** Lines 60-65. *)
Definition aggregate (frame : date_frame) (rows : list raw_row)
  : list raw_row :=
  match frame with
  | Daily => sort_by_date rows
  | _ => sort_by_date (resample_sum (ordinal_of frame) (label_of frame) rows)
  end.

(** ** Dataframes

    A dataframe is a list of rows; a row maps column names to cells.
    Reading a column that a row lacks raises [KeyError], a position
    outside the frame raises [IndexError]. *)

Inductive cell : Type :=
  | Date (d : Z)
  | Num (x : f64)
  | Str (l : label).

#[global] Instance cell_eq_dec : EqDecision cell.
Proof. solve_decision. Defined.

Abbreviation row := (gmap string cell).
Abbreviation DataFrame := (list (gmap string cell)).

Inductive exn : Type :=
  | KeyError (c : string)
  | IndexError
  | TypeError.

Inductive result (A : Type) : Type :=
  | Ok (a : A)
  | Raise (e : exn).

Arguments Ok {A} a.
Arguments Raise {A} e.

#[global] Instance exn_eq_dec : EqDecision exn.
Proof. solve_decision. Defined.

#[global] Instance result_eq_dec {A} `{EqDecision A} : EqDecision (result A).
Proof. solve_decision. Defined.

#[global] Instance result_ret : MRet result := λ A a, Ok a.
#[global] Instance result_bind : MBind result := λ A B f m,
  match m with
  | Ok a => f a
  | Raise e => Raise e
  end.
#[global] Instance result_fmap : FMap result := λ A B f m,
  match m with
  | Ok a => Ok (f a)
  | Raise e => Raise e
  end.

(** [row[c]] *)
Definition get_cell (r : row) (c : string) : result cell :=
  match r !! c with
  | Some v => Ok v
  | None => Raise (KeyError c)
  end.

Definition get_num (r : row) (c : string) : result f64 :=
  v ← get_cell r c;
  match v with Num x => Ok x | _ => Raise TypeError end.

Definition get_date (r : row) (c : string) : result Z :=
  v ← get_cell r c;
  match v with Date d => Ok d | _ => Raise TypeError end.

Definition get_label (r : row) (c : string) : result label :=
  v ← get_cell r c;
  match v with Str l => Ok l | _ => Raise TypeError end.

(** Reading a whole column with one accessor. *)
Fixpoint column_with {A} (get : row → string → result A)
    (df : DataFrame) (c : string) : result (list A) :=
  match df with
  | [] => Ok []
  | r :: df' =>
      x ← get r c;
      xs ← column_with get df' c;
      Ok (x :: xs)
  end.

(** [df[c]] for a numeric, a date and a label column. *)
Definition column := column_with get_num.
Definition date_column := column_with get_date.
Definition label_column := column_with get_label.

(** [df[c] = values] *)
Definition assign {A} (mk : A → cell) (c : string) (values : list A)
    (df : DataFrame) : DataFrame :=
  zip_with (λ r v, <[c := mk v]> r) df values.

Definition set_column := assign Num.
Definition set_labels := assign Str.

(** [df.iloc[i]]; a negative position counts from the end. *)
Definition iloc (df : DataFrame) (i : Z) : result row :=
  let n := Z.of_nat (length df) in
  let j := if (i <? 0)%Z then (n + i)%Z else i in
  if ((0 <=? j) && (j <? n))%Z
  then match df !! Z.to_nat j with
       | Some r => Ok r
       | None => Raise IndexError
       end
  else Raise IndexError.

(** ** Smoother (lines 12-18): the body of [calculate_moving_averages]

    The three assignments add their columns to the dataframe they are
    given; the function returns that dataframe. *)

Definition page_change_ma (window_size : nat) : string :=
  "Page Change " +:+ pretty window_size +:+ "MA".
Definition traffic_change_ma (window_size : nat) : string :=
  "Traffic Change " +:+ pretty window_size +:+ "MA".
Definition traffic_per_page_ma (window_size : nat) : string :=
  "Traffic per Page " +:+ pretty window_size +:+ "MA".

Definition calculate_moving_averages
    (df : DataFrame) (page_col traffic_col : string) (window_size : nat)
  : result DataFrame :=
  pcr ← column df "Page Change Rate";
  let df := set_column (page_change_ma window_size)
              (rolling_mean window_size pcr) df in
  tcr ← column df "Traffic Change Rate";
  let df := set_column (traffic_change_ma window_size)
              (rolling_mean window_size tcr) df in
  tpp ← column df "Traffic per Page";
  let df := set_column (traffic_per_page_ma window_size)
              (rolling_mean window_size tpp) df in
  Ok df.

(** ** The analysis of one run (lines 67-89, 192-237) *)

Record summary : Type := Summary {
  positive_weighted_avg : f64;
  negative_weighted_avg : f64;
}.

(** One sentence of the ranking-state report: the values its text is
    formatted from. *)
Record interval : Type := Interval {
  i_start_date : Z;
  i_end_date : Z;
  i_state : label;
  i_avg_tpp_start : f64;
  i_avg_tpp_end : f64;
  i_page_change_total : f64;
  i_traffic_change_pct : f64;
}.

(** [df[df['Ranking State'] != df['Ranking State'].shift(1)]]: the first
    row always differs from the missing value shifted in. *)
Fixpoint changed_rows (prev : option label) (states : list label)
    (df : DataFrame) : DataFrame :=
  match states, df with
  | s :: states', r :: df' =>
      if decide (prev = Some s)
      then changed_rows (Some s) states' df'
      else r :: changed_rows (Some s) states' df'
  | _, _ => []
  end.

Section Analysis.
Variables date_col page_col traffic_col : string.
Variable window_size : nat.

(** Lines 68-75. *)
Definition rate_calculator (df : DataFrame) : result DataFrame :=
  p ← column df page_col;
  let df := set_column "Pages Added" (pages_added p) df in
  pa ← column df "Pages Added";
  p ← column df page_col;
  let df := set_column "Page Change Rate" (page_change_rate pa p) df in
  t ← column df traffic_col;
  p ← column df page_col;
  let df := set_column "Traffic per Page" (traffic_per_page t p) df in
  t ← column df traffic_col;
  let df := set_column "Traffic Change Rate" (traffic_change_rate t) df in
  Ok df.

(** Lines 85 and 194. *)
Definition classify (df : DataFrame) : result DataFrame :=
  ma ← column df (traffic_per_page_ma window_size);
  Ok (set_labels "Ranking State" (ranking_state ma) df).

(** [np.average(df[df['Ranking State'] == st][...MA].dropna())] *)
Definition state_average (st : label) (df : DataFrame) : result f64 :=
  states ← label_column df "Ranking State";
  let group :=
    filter (λ r, r !! "Ranking State" = Some (Str st)) df in
  ma ← column group (page_change_ma window_size);
  Ok (np_average (dropna ma)).

(** Lines 88-89. *)
Definition summarize (df : DataFrame) : result summary :=
  pos ← state_average Positive df;
  neg ← state_average Negative df;
  Ok (Summary pos neg).

(** Lines 67-89. *)
Definition analyze (df : DataFrame) : result (DataFrame * summary) :=
  df ← rate_calculator df;
  df ← calculate_moving_averages df page_col traffic_col window_size;
  df ← classify df;
  sm ← summarize df;
  Ok (df, sm).

(** Line 195. *)
Definition ranking_state_changes (df : DataFrame) : result DataFrame :=
  states ← label_column df "Ranking State";
  Ok (changed_rows None states df).

(** Lines 207 and 225: [(to - from) / from * 100].  Exact arithmetic
    does not overflow; in float64 the result of finite operands stays
    finite for counts up to 2^53. *)
Definition percent_change (from to : f64) : f64 :=
  f64_mul (f64_div (f64_sub to from) from) (num 100).

(** Lines 200-215: the body of the loop for one [i]; [None] when the
    sentence is not appended. *)
Definition interior_segment (changes : DataFrame) (i : nat)
  : result (option interval) :=
  ri ← iloc changes (Z.of_nat i);
  rj ← iloc changes (Z.of_nat i + 1);
  state ← get_label ri "Ranking State";
  start_date ← get_date ri date_col;
  next_date ← get_date rj date_col;
  let end_date := (next_date - 1)%Z in
  avg_tpp_start ← get_num ri (traffic_per_page_ma window_size);
  avg_tpp_end ← get_num rj (traffic_per_page_ma window_size);
  if negb (isna avg_tpp_start) && negb (isna avg_tpp_end) then
    p_end ← get_num rj page_col;
    p_start ← get_num ri page_col;
    let page_change_total := percent_change p_start p_end in
    traffic_change_pct ← get_num rj "Traffic Change Rate";
    Ok (Some (Interval start_date end_date state avg_tpp_start
                avg_tpp_end page_change_total traffic_change_pct))
  else Ok None.

(** Lines 217-233. *)
Definition final_segment (df changes : DataFrame)
  : result (option interval) :=
  last ← iloc df (-1);
  ma_last ← get_num last (traffic_per_page_ma window_size);
  before ← iloc df (-2);
  ma_before ← get_num before (traffic_per_page_ma window_size);
  let final_state :=
    if f64_gt ma_last ma_before then Positive else Negative in
  rc ← iloc changes (-1);
  final_start_date ← get_date rc date_col;
  dates ← date_column df date_col;
  let final_end_date := foldr Z.max final_start_date dates in
  final_avg_tpp_start ← get_num rc (traffic_per_page_ma window_size);
  let final_avg_tpp_end := ma_last in
  if negb (isna final_avg_tpp_start) && negb (isna final_avg_tpp_end) then
    p_end ← get_num last page_col;
    p_start ← get_num rc page_col;
    let final_page_change_total := percent_change p_start p_end in
    final_traffic_change_pct ← get_num last "Traffic Change Rate";
    Ok (Some (Interval final_start_date final_end_date final_state
                final_avg_tpp_start final_avg_tpp_end
                final_page_change_total final_traffic_change_pct))
  else Ok None.

(** The outcomes of the loop, in order. *)
Fixpoint interior_segments (changes : DataFrame) (idxs : list nat)
  : result (list (option interval)) :=
  match idxs with
  | [] => Ok []
  | i :: idxs' =>
      o ← interior_segment changes i;
      os ← interior_segments changes idxs';
      Ok (o :: os)
  end.

(** Lines 192-235. *)
Definition generate_ranking_report (df : DataFrame)
  : result (DataFrame * list interval) :=
  df ← classify df;
  changes ← ranking_state_changes df;
  match changes with
  | [] => Ok (df, [])
  | _ =>
      inner ← interior_segments changes (seq 0 (length changes - 1));
      final ← final_segment df changes;
      Ok (df, omap id (inner ++ [final]))
  end.

(** A whole run on an aggregated frame: the summary, then the report
    on a copy of the analysed frame (line 237). *)
Definition run (df : DataFrame)
  : result (DataFrame * summary * list interval) :=
  '(df, sm) ← analyze df;
  '(df, report) ← generate_ranking_report df;
  Ok (df, sm, report).

End Analysis.

(** The aggregated records as a dataframe with the user's column names. *)
Definition to_frame (date_col page_col traffic_col : string)
    (rows : list raw_row) : DataFrame :=
  (λ r, <[traffic_col := Num (r_traffic r)]>
          (<[page_col := Num (r_pages r)]>
             {[ date_col := Date (r_date r) ]})) <$> rows.

(** ** The cached smoothing call (line 12, line 82)

    Dataframes are objects: a session holds them in a heap, and the
    decorator [st.cache_data] keeps the results of earlier calls, keyed by
    the contents of the arguments.  On a miss the decorated function runs
    on the caller's own object and its result is stored and returned; on a
    hit the function does not run and the caller receives a new copy of
    the stored result. *)

Abbreviation loc := positive.

Record cache_key : Type := CacheKey {
  k_df : DataFrame;
  k_page_col : string;
  k_traffic_col : string;
  k_window_size : nat;
}.

#[global] Instance cache_key_eq_dec : EqDecision cache_key.
Proof. solve_decision. Defined.

Record session : Type := Session {
  heap : gmap loc DataFrame;
  cache : list (cache_key * DataFrame);
}.

Fixpoint cache_read (k : cache_key) (entries : list (cache_key * DataFrame))
  : option DataFrame :=
  match entries with
  | [] => None
  | (k', v) :: rest => if decide (k = k') then Some v else cache_read k rest
  end.

Definition cached_calculate_moving_averages
    (l : loc) (page_col traffic_col : string) (window_size : nat)
    (σ : session) : result (loc * session) :=
  match heap σ !! l with
  | None => Raise IndexError
  | Some df =>
      let key := CacheKey df page_col traffic_col window_size in
      match cache_read key (cache σ) with
      | Some stored =>
          let l' := fresh (dom (heap σ)) in
          Ok (l', Session (<[l' := stored]> (heap σ)) (cache σ))
      | None =>
          df' ← calculate_moving_averages df page_col traffic_col window_size;
          Ok (l, Session (<[l := df']> (heap σ)) ((key, df') :: cache σ))
      end
  end.

(** Every stored result is what the function computes for its key. *)
Definition cache_sound (entries : list (cache_key * DataFrame)) : Prop :=
  ∀ k v, (k, v) ∈ entries →
    calculate_moving_averages (k_df k) (k_page_col k) (k_traffic_col k)
      (k_window_size k) = Ok v.

(** ** The smoother as the specification words it

    A window that holds a null leaves it out of both the sum and the
    count. *)
Definition skipna_mean (win : series) : f64 := np_average (dropna win).

(** ** Auxiliary notions for the statements *)

(** Sum of a list of rationals. *)
Fixpoint Qc_sum (qs : list Qc) : Qc :=
  match qs with
  | [] => 0
  | q :: qs' => q + Qc_sum qs'
  end.

(** The columns the script adds to the frame. *)
Definition derived_columns (window_size : nat) : list string :=
  ["Pages Added"; "Page Change Rate"; "Traffic per Page";
   "Traffic Change Rate"; page_change_ma window_size;
   traffic_change_ma window_size; traffic_per_page_ma window_size;
   "Ranking State"].

(** The three columns the smoother adds. *)
Definition ma_columns (W : nat) : list string :=
  [page_change_ma W; traffic_change_ma W; traffic_per_page_ma W].

(** What the three accessors have in common. *)
Record accessor {A} (get : row → string → result A) (mk : A → cell) := {
  get_insert_eq : ∀ r c v, get (<[c := mk v]> r) c = Ok v;
  get_insert_ne : ∀ r c c' v, c ≠ c' → get (<[c := v]> r) c' = get r c';
  get_Ok : ∀ r c v, get r c = Ok v → r !! c = Some (mk v);
}.

Section AnalysedFrame.
Variables date_col page_col traffic_col : string.
Variable W : nat.

(** The columns of a frame after lines 68-85. *)
Record analysed (p t : series) (d : list Z) (df : DataFrame) : Prop := {
an_pages : column df page_col = Ok p;
an_traffic : column df traffic_col = Ok t;
an_dates : date_column df date_col = Ok d;
an_tcr : column df "Traffic Change Rate" = Ok (traffic_change_rate t);
an_pc_ma :
  column df (page_change_ma W)
  = Ok (rolling_mean W (page_change_rate (pages_added p) p));
an_tpp_ma :
  column df (traffic_per_page_ma W)
  = Ok (rolling_mean W (traffic_per_page t p));
an_state :
  label_column df "Ranking State"
  = Ok (ranking_state (rolling_mean W (traffic_per_page t p)));
}.

End AnalysedFrame.

(** ** The default date range (lines 51-53)

    [df[date_col].min()] and [df[date_col].max()], the defaults of the
    date-range input; there is none for a frame without rows. *)

Definition min_date (rows : list raw_row) : option Z :=
  match rows with
  | [] => None
  | r :: rest => Some (foldr (λ r' m, Z.min (r_date r') m) (r_date r) rest)
  end.

Definition max_date (rows : list raw_row) : option Z :=
  match rows with
  | [] => None
  | r :: rest => Some (foldr (λ r' m, Z.max (r_date r') m) (r_date r) rest)
  end.

(** The values of a series at the periods that carry a given label. *)
Definition group_values (st : label) (states : list label) (xs : series)
  : series :=
  omap (λ sx, if decide (sx.1 = st) then Some sx.2 else None) (zip states xs).

(** The other of the two labels. *)
Definition opposite (l : label) : label :=
  match l with Positive => Negative | Negative => Positive end.

(** A row that holds every cell the report reads (lines 200-228). *)
Definition complete_row (date_col page_col : string) (W : nat) (r : row)
  : Prop :=
  (∃ l, get_label r "Ranking State" = Ok l)
  ∧ (∃ d, get_date r date_col = Ok d)
  ∧ (∃ m, get_num r (traffic_per_page_ma W) = Ok m)
  ∧ (∃ x, get_num r page_col = Ok x)
  ∧ (∃ x, get_num r "Traffic Change Rate" = Ok x).

(** A count: a whole number from 0 to 2^53, which int64 and float64
    both hold exactly. *)
Definition count (x : f64) : Prop :=
  ∃ z : Z, x = num z ∧ (0 ≤ z ≤ 2 ^ 53)%Z.

(** A value that is null, infinite, or finite of magnitude at most
    2^900: sums of such values over a series do not overflow float64. *)
Definition moderate (x : f64) : Prop :=
  match x with
  | Fin q => - Qc_of_Z (2 ^ 900) ≤ q ∧ q ≤ Qc_of_Z (2 ^ 900)
  | _ => True
  end.

(** * Properties *)

(** Closed decidable statements are settled by evaluation. *)
Ltac by_compute := apply (bool_decide_unpack _); vm_compute; exact I.

(** ** Arithmetic *)

Lemma Qc_of_Z_0 : Qc_of_Z 0 = 0.
Proof. by apply Qc_is_canon. Qed.

Lemma Qc_of_Z_1 : Qc_of_Z 1 = 1.
Proof. by apply Qc_is_canon. Qed.

Lemma Qc_of_nat_pos (n : nat) : (0 < n)%nat → (Qc_of_Z (Z.of_nat n) ?= 0) = Gt.
Proof.
  intros Hn. unfold Qccompare, Qcompare. simpl.
  rewrite Z.mul_1_r. apply Z.compare_gt_iff. lia.
Qed.

Lemma Qccompare_refl_0 (q : Qc) : (q ?= 0) = Eq ↔ q = 0.
Proof. symmetry. apply Qceq_alt. Qed.

Lemma f64_sub_nan_r x : f64_sub x NaN = NaN.
Proof. by destruct x. Qed.

Lemma f64_sub_fin a b : f64_sub (Fin a) (Fin b) = Fin (a - b).
Proof. reflexivity. Qed.

Lemma f64_gt_nan_l y : f64_gt NaN y = false.
Proof. reflexivity. Qed.

Lemma f64_gt_zero_zero : f64_gt (num 0) (num 0) = false.
Proof. reflexivity. Qed.

Lemma f64_sub_isna a b : isna a || isna b = true → f64_sub a b = NaN.
Proof. destruct a, b; simpl; done. Qed.

(** ** Looking up the series operations *)

Lemma length_shift xs : length (shift xs) = length xs.
Proof. unfold shift. rewrite length_take. simpl. lia. Qed.

Lemma shift_lookup_0 xs : (0 < length xs)%nat → shift xs !! 0%nat = Some NaN.
Proof. intros H. unfold shift. by rewrite lookup_take_lt. Qed.

Lemma shift_lookup_S xs i :
  (S i < length xs)%nat → shift xs !! S i = xs !! i.
Proof. intros H. unfold shift. by rewrite lookup_take_lt. Qed.

Lemma length_diff xs : length (diff xs) = length xs.
Proof.
  unfold diff, series_sub. rewrite length_zip_with, length_shift. lia.
Qed.

Lemma diff_lookup_0 xs x : xs !! 0%nat = Some x → diff xs !! 0%nat = Some NaN.
Proof.
  intros Hx. unfold diff, series_sub.
  rewrite lookup_zip_with, Hx, shift_lookup_0; simpl.
  - by rewrite f64_sub_nan_r.
  - apply lookup_lt_Some in Hx. lia.
Qed.

Lemma diff_lookup_S xs i a b :
  xs !! i = Some b → xs !! S i = Some a →
  diff xs !! S i = Some (f64_sub a b).
Proof.
  intros Hb Ha. unfold diff, series_sub.
  rewrite lookup_zip_with, Ha, shift_lookup_S, Hb; [done|].
  by apply lookup_lt_Some in Ha.
Qed.

Lemma fillna_lookup v xs i :
  fillna v xs !! i = (λ x, if isna x then v else x) <$> xs !! i.
Proof. unfold fillna. apply list_lookup_fmap. Qed.

Lemma length_ranking_state s : length (ranking_state s) = length s.
Proof.
  unfold ranking_state, fillna. by rewrite !length_fmap, length_diff.
Qed.

Lemma ranking_state_lookup_0 s x :
  s !! 0%nat = Some x → ranking_state s !! 0%nat = Some Negative.
Proof.
  intros Hx. unfold ranking_state.
  rewrite list_lookup_fmap, fillna_lookup, (diff_lookup_0 _ _ Hx). done.
Qed.

Lemma ranking_state_lookup_S s i a b :
  s !! i = Some b → s !! S i = Some a →
  ranking_state s !! S i =
    Some (if f64_gt (if isna (f64_sub a b) then num 0 else f64_sub a b) (num 0)
          then Positive else Negative).
Proof.
  intros Hb Ha. unfold ranking_state.
  by rewrite list_lookup_fmap, fillna_lookup, (diff_lookup_S _ _ _ _ Hb Ha).
Qed.

Lemma label_partition (ls : list label) :
  (length (filter (λ l, l = Positive) ls)
   + length (filter (λ l, l = Negative) ls) = length ls)%nat.
Proof.
  induction ls as [|[] ls IH]; [done| |].
  - rewrite filter_cons_True, filter_cons_False by done. simpl. lia.
  - rewrite filter_cons_False, filter_cons_True by done. simpl. lia.
Qed.

Lemma ranking_state_finite s i a b :
  s !! i = Some (Fin b) → s !! S i = Some (Fin a) →
  ranking_state s !! S i
  = Some (match a - b ?= 0 with Gt => Positive | _ => Negative end).
Proof.
  intros Hb Ha. rewrite (ranking_state_lookup_S _ _ _ _ Hb Ha), f64_sub_fin.
  cbn [isna f64_gt]. unfold num. rewrite Qc_of_Z_0.
  by destruct (a - b ?= 0).
Qed.

Lemma ranking_state_infinite s i a b :
  s !! i = Some b → s !! S i = Some a → isinf a || isinf b = true →
  ranking_state s !! S i = Some Positive
  ↔ (a = PInf ∧ b ≠ PInf ∧ isna b = false)
    ∨ (b = NInf ∧ a ≠ NInf ∧ isna a = false).
Proof.
  intros Hb Ha Hinf. rewrite (ranking_state_lookup_S _ _ _ _ Hb Ha).
  destruct a as [| | |a], b as [| | |b]; try discriminate Hinf; cbn;
    (split; [intros Hl|intros [(H1 & H2 & H3)|(H1 & H2 & H3)]]);
    try done; try congruence;
    first [left; by repeat split|right; by repeat split].
Qed.

(** C1. Every period gets exactly one of the two labels, so the Positive
    and the Negative periods together are all the periods.  Period 0 is
    Negative.  For a period [i+1] whose smoothed traffic per page [a] and
    that of the period before [b] are both finite, the label is Positive
    exactly when the difference [a - b] is above 0, and Negative exactly
    when it is 0 or below.  A period for which either of the two values
    is null is Negative.  With an infinite value the difference is
    positive, and the label Positive, only from a value other than
    [+inf] up to [+inf] or from [-inf] up to a value other than [-inf]. *)
Theorem state_classifier_total_and_rule (s : series) :
  length (ranking_state s) = length s
  ∧ (length (filter (λ l, l = Positive) (ranking_state s))
     + length (filter (λ l, l = Negative) (ranking_state s)) = length s)%nat
  ∧ (∀ x, s !! 0%nat = Some x → ranking_state s !! 0%nat = Some Negative)
  ∧ (∀ i a b, s !! i = Some (Fin b) → s !! S i = Some (Fin a) →
       (ranking_state s !! S i = Some Positive ↔ 0 < a - b)
       ∧ (ranking_state s !! S i = Some Negative ↔ a - b ≤ 0))
  ∧ (∀ i a b, s !! i = Some b → s !! S i = Some a →
       isna a || isna b = true → ranking_state s !! S i = Some Negative)
  ∧ (∀ i a b, s !! i = Some b → s !! S i = Some a →
       isinf a || isinf b = true →
       ranking_state s !! S i = Some Positive
       ↔ (a = PInf ∧ b ≠ PInf ∧ isna b = false)
         ∨ (b = NInf ∧ a ≠ NInf ∧ isna a = false)).
Proof.
  split; [apply length_ranking_state|].
  split; [rewrite label_partition; apply length_ranking_state|].
  split; [apply ranking_state_lookup_0|].
  split; [|split; [|apply ranking_state_infinite]].
  - intros i a b Hb Ha. rewrite (ranking_state_finite _ _ _ _ Hb Ha).
    destruct (a - b ?= 0) eqn:Hc.
    + apply Qceq_alt in Hc. split; (split; [intros H|intros H]);
        try done; rewrite Hc in *.
      * apply Qclt_not_le in H. exfalso. apply H, Qcle_refl.
      * apply Qcle_refl.
    + apply Qclt_alt in Hc. split; (split; [intros H|intros H]); try done.
      * exfalso. apply (Qclt_not_le _ _ (Qclt_trans _ _ _ H Hc)), Qcle_refl.
      * by apply Qclt_le_weak.
    + apply Qcgt_alt in Hc. split; (split; [intros H|intros H]); try done.
      exfalso. by apply Qcle_not_lt in H.
  - intros i a b Hb Ha Hna.
    rewrite (ranking_state_lookup_S _ _ _ _ Hb Ha).
    by rewrite (f64_sub_isna _ _ Hna).
Qed.

Lemma state_classifier_witness :
  let s := [num 10; Fin (Q2Qc (25 # 2)); num 10; NaN] in
  ranking_state s !! 1%nat = Some Positive
  ∧ ranking_state s !! 2%nat = Some Negative
  ∧ ranking_state s !! 3%nat = Some Negative.
Proof.
  intros s.
  destruct (state_classifier_total_and_rule s)
    as (_ & _ & _ & Hfin & Hnull & _).
  split; [|split].
  - apply (Hfin 0%nat (Q2Qc (25 # 2)) (Qc_of_Z 10)); [reflexivity..|].
    by_compute.
  - apply (Hfin 1%nat (Qc_of_Z 10) (Q2Qc (25 # 2))); [reflexivity..|].
    by_compute.
  - apply (Hnull 2%nat NaN (num 10)); reflexivity.
Defined.

(** ** The scenarios of the specification, and the calendar *)

Example scenario_tpp :
  traffic_per_page [num 100; num 150; num 120] [num 10; num 12; num 12]
  = [num 10; Fin (Q2Qc (25#2)); num 10].
Proof. by_compute. Qed.

Example scenario_state :
  ranking_state
    (rolling_mean 1
       (traffic_per_page [num 100; num 150; num 120] [num 10; num 12; num 12]))
  = [Negative; Positive; Negative].
Proof. by_compute. Qed.

Example scenario_page_change :
  let p := [num 10; num 12; num 12] in
  page_change_rate (pages_added p) p
  = [NaN; Fin (Q2Qc (200 # 12)); num 0].
Proof. by_compute. Qed.

Example civil_2024_01_01 : days_from_civil 2024 1 1 = 19723%Z.
Proof. reflexivity. Qed.
Example civil_back : civil_from_days 19723 = (2024, 1, 1)%Z.
Proof. reflexivity. Qed.
Example civil_leap :
  civil_from_days (days_from_civil 2024 2 29) = (2024, 2, 29)%Z.
Proof. reflexivity. Qed.
Example civil_epoch : days_from_civil 1970 1 1 = 0%Z.
Proof. reflexivity. Qed.
Example week_monday : week_label (week_ordinal 19723) = 19723%Z.
Proof. reflexivity. Qed.
Example week_tuesday : week_label (week_ordinal 19724) = 19730%Z.
Proof. reflexivity. Qed.
Example month_jan :
  month_label (month_ordinal 19723) = days_from_civil 2024 1 31.
Proof. reflexivity. Qed.
Example month_dec :
  month_label (month_ordinal (days_from_civil 2023 12 5))
  = days_from_civil 2023 12 31.
Proof. reflexivity. Qed.
Example month_feb :
  month_label (month_ordinal (days_from_civil 2024 2 5))
  = days_from_civil 2024 2 29.
Proof. reflexivity. Qed.

(** ** Rate calculator *)

Lemma pages_added_lookup_0 p x :
  p !! 0%nat = Some x → pages_added p !! 0%nat = Some (num 0).
Proof.
  intros Hx. unfold pages_added.
  by rewrite fillna_lookup, (diff_lookup_0 _ _ Hx).
Qed.

Lemma pages_added_lookup_S p i a b :
  p !! i = Some (Fin a) → p !! S i = Some (Fin b) →
  pages_added p !! S i = Some (Fin (b - a)).
Proof.
  intros Ha Hb. unfold pages_added.
  by rewrite fillna_lookup, (diff_lookup_S _ _ _ _ Ha Hb).
Qed.

Lemma page_change_rate_lookup pa p i :
  page_change_rate pa p !! i =
    x ← pa !! i;
    d ← (y ← shift p !! i; z ← pa !! i; Some (f64_add y z));
    Some (f64_mul
            (f64_div x
               match d with
               | Fin q => match q ?= 0 with Eq => NaN | _ => d end
               | _ => d
               end)
            (num 100)).
Proof.
  unfold page_change_rate, times100, series_div, replace_zero_nan, series_add.
  rewrite list_lookup_fmap, lookup_zip_with, list_lookup_fmap, lookup_zip_with.
  destruct (pa !! i); simpl; [|done].
  destruct (shift p !! i); simpl; done.
Qed.

Lemma page_change_rate_lookup_0 p x :
  p !! 0%nat = Some x →
  page_change_rate (pages_added p) p !! 0%nat = Some NaN.
Proof.
  intros Hx. rewrite page_change_rate_lookup.
  rewrite (pages_added_lookup_0 _ _ Hx), shift_lookup_0; [done|].
  apply lookup_lt_Some in Hx. lia.
Qed.

Lemma page_change_rate_lookup_S p i a b :
  p !! i = Some (Fin a) → p !! S i = Some (Fin b) →
  page_change_rate (pages_added p) p !! S i =
    Some (if decide (b = 0) then NaN
          else Fin ((b - a) / b * Qc_of_Z 100)).
Proof.
  intros Ha Hb. rewrite page_change_rate_lookup.
  assert (S i < length p)%nat as Hlt by by apply lookup_lt_Some in Hb.
  rewrite (pages_added_lookup_S _ _ _ _ Ha Hb), (shift_lookup_S _ _ Hlt), Ha.
  simpl. replace (a + (b - a)) with b by ring.
  destruct (decide (b = 0)) as [->|Hne].
  - by rewrite (proj2 (Qccompare_refl_0 0) eq_refl).
  - destruct (b ?= 0) eqn:Hc; [by apply Qccompare_refl_0 in Hc|..];
      simpl; by rewrite Hc.
Qed.

(** C6, as the code has it.  From the second period on, with the page
    counts of the period and of the one before it both counts (whole
    numbers from 0 to 2^53), pages_added is the difference of the two
    counts, the page change rate is null exactly when the period's page
    count is zero, and otherwise it is pages_added / page_count * 100.
    In the first period pages_added is 0 and the page change rate is
    null whatever the page count. *)
Theorem page_change_rate_definedness (p : series) (i : nat) (a b : Z) :
  (0 ≤ a ≤ 2 ^ 53)%Z → (0 ≤ b ≤ 2 ^ 53)%Z →
  p !! i = Some (num a) → p !! S i = Some (num b) →
  pages_added p !! S i = Some (num (b - a))
  ∧ (page_change_rate (pages_added p) p !! S i = Some NaN ↔ b = 0%Z)
  ∧ (b ≠ 0%Z →
     page_change_rate (pages_added p) p !! S i
     = Some (Fin (Qc_of_Z (b - a) / Qc_of_Z b * Qc_of_Z 100)))
  ∧ pages_added p !! 0%nat = Some (num 0)
  ∧ page_change_rate (pages_added p) p !! 0%nat = Some NaN.
Proof.
  intros _ _ Ha Hb.
  assert (∃ x, p !! 0%nat = Some x) as [x Hx].
  { apply lookup_lt_is_Some. apply lookup_lt_Some in Hb. lia. }
  rewrite (page_change_rate_lookup_S _ _ _ _ Ha Hb).
  unfold num. rewrite Z2Qc_inj_sub.
  split; [by apply pages_added_lookup_S|].
  assert (Qc_of_Z b = 0 ↔ b = 0%Z) as Hz
    by (rewrite <- Z2Qc_inj_0; apply Z2Qc_inj_iff).
  split; [|split; [|split]].
  - destruct (decide (Qc_of_Z b = 0)) as [H0|H0].
    + split; [intros _; by apply Hz|done].
    + split; [by intros [=]|]. intros ?. exfalso. by apply H0, Hz.
  - intros Hne. destruct (decide (Qc_of_Z b = 0)) as [H0|H0]; [|done].
    exfalso. by apply Hne, Hz.
  - by apply (pages_added_lookup_0 _ x).
  - by apply (page_change_rate_lookup_0 _ x).
Qed.

Lemma page_change_rate_witness :
  let p := [num 10; num 12; num 0] in
  pages_added p !! 1%nat = Some (num 2)
  ∧ page_change_rate (pages_added p) p !! 2%nat = Some NaN.
Proof.
  intros p. split.
  - destruct (page_change_rate_definedness p 0 10 12) as (H & _);
      [lia|lia|reflexivity|reflexivity|exact H].
  - destruct (page_change_rate_definedness p 1 12 0) as (_ & H & _);
      [lia|lia|reflexivity|reflexivity|].
    apply H. reflexivity.
Defined.

(** C6 as stated fails in the first period: the page count is 10, not
    zero, and the page change rate is null all the same. *)
Lemma page_change_rate_first_period_null :
  ¬ (∀ (p : series) (i : nat) (x : f64),
       p !! i = Some x →
       (page_change_rate (pages_added p) p !! i = Some NaN ↔ x = num 0)).
Proof.
  intros H. specialize (H [num 10] 0%nat (num 10) eq_refl) as [H _].
  specialize (H eq_refl). by apply (bool_decide_eq_false_1 _) in H.
Qed.

(** C3 at a zero denominator: traffic 5 on 0 pages gives an infinite
    traffic per page, and traffic 5 after traffic 0 an infinite traffic
    change rate; neither is null.  The page change rate of the same
    period is null. *)
Theorem zero_denominator_gives_infinity :
  traffic_per_page [num 5] [num 0] = [PInf]
  ∧ traffic_change_rate [num 0; num 5] = [NaN; PInf]
  ∧ page_change_rate (pages_added [num 3; num 0]) [num 3; num 0]
    = [NaN; NaN].
Proof. repeat split; by_compute. Qed.

(** ** Smoother *)

Lemma length_roll_mean W minp xs : length (roll_mean W minp xs) = length xs.
Proof. unfold roll_mean. by rewrite length_fmap, length_seq. Qed.

Lemma length_rolling_mean W xs : length (rolling_mean W xs) = length xs.
Proof. apply length_roll_mean. Qed.

Lemma roll_mean_lookup W minp xs i :
  (i < length xs)%nat →
  roll_mean W minp xs !! i
  = Some (calc_mean minp (window_at W (prep_values xs) i)).
Proof.
  intros Hi. unfold roll_mean.
  by rewrite list_lookup_fmap, lookup_seq_lt.
Qed.

Lemma window_at_prep W xs i :
  window_at W (prep_values xs) i = prep_values (window_at W xs i).
Proof.
  unfold window_at, prep_values. by rewrite fmap_take, fmap_drop.
Qed.

Lemma length_window_at W xs i :
  (i < length xs)%nat → length (window_at W xs i) = (S i - (S i - W))%nat.
Proof.
  intros Hi. unfold window_at. rewrite length_take, length_drop. lia.
Qed.

Lemma dropna_cons_nan xs : dropna (NaN :: xs) = dropna xs.
Proof. unfold dropna. by rewrite filter_cons_False. Qed.

Lemma dropna_cons x xs : isna x = false → dropna (x :: xs) = x :: dropna xs.
Proof. intros H. unfold dropna. by rewrite filter_cons_True. Qed.

Lemma length_dropna xs : (length (dropna xs) ≤ length xs)%nat.
Proof. apply length_filter. Qed.

Lemma prep_values_cons x xs :
  prep_values (x :: xs) = (if isinf x then NaN else x) :: prep_values xs.
Proof. reflexivity. Qed.

(** After the infinities are turned into NaN, the observations of a
    window are all of it exactly when every value is finite. *)
Lemma dropna_prep_finite win :
  forallb isfinite win = true → dropna (prep_values win) = win.
Proof.
  induction win as [|x win IH]; [done|].
  intros [Hx Hw]%andb_true_iff. rewrite prep_values_cons.
  destruct x; try done.
  rewrite dropna_cons by done. by rewrite IH.
Qed.

Lemma dropna_prep_not_finite win :
  forallb isfinite win = false →
  (length (dropna (prep_values win)) < length win)%nat.
Proof.
  induction win as [|x win IH]; [done|]. intros H.
  pose proof (length_dropna (prep_values win)) as Hle.
  assert (length (prep_values win) = length win) as Hpl
    by (unfold prep_values; by rewrite length_fmap).
  rewrite prep_values_cons.
  destruct x; cbn [isinf];
    rewrite ?dropna_cons_nan, ?dropna_cons by done; cbn [length]; try lia.
  specialize (IH H). lia.
Qed.

Lemma rolling_mean_lookup (W : nat) (xs : series) (i : nat) :
  (1 ≤ W)%nat → (i < length xs)%nat →
  rolling_mean W xs !! i = Some
    (if bool_decide (i < W - 1)%nat then NaN
     else if forallb isfinite (window_at W xs i)
          then f64_div (f64_sum (window_at W xs i)) (num (Z.of_nat W))
          else NaN).
Proof.
  intros HW Hi. unfold rolling_mean.
  rewrite (roll_mean_lookup _ _ _ _ Hi), window_at_prep. f_equal.
  pose proof (length_window_at W xs i Hi) as Hlen.
  pose proof (length_dropna (prep_values (window_at W xs i))) as Hle.
  assert (length (prep_values (window_at W xs i))
          = length (window_at W xs i)) as Hpl
    by (unfold prep_values; by rewrite length_fmap).
  unfold calc_mean. destruct (decide (i < W - 1)%nat) as [Hsmall|Hlarge].
  - rewrite (bool_decide_eq_true_2 (i < W - 1)%nat) by done.
    rewrite bool_decide_eq_false_2; [done|]. lia.
  - rewrite (bool_decide_eq_false_2 (i < W - 1)%nat) by done.
    assert (length (window_at W xs i) = W) as HlenW by lia.
    destruct (forallb isfinite (window_at W xs i)) eqn:Hfin.
    + rewrite (dropna_prep_finite _ Hfin), HlenW.
      rewrite !bool_decide_eq_true_2 by lia. done.
    + apply dropna_prep_not_finite in Hfin.
      rewrite bool_decide_eq_false_2; [done|]. lia.
Qed.


Lemma f64_sum_finite qs : f64_sum (Fin <$> qs) = Fin (Qc_sum qs).
Proof.
  induction qs as [|q qs IH]; [done|].
  change (f64_sum (Fin <$> q :: qs))
    with (f64_add (Fin q) (f64_sum (Fin <$> qs))).
  by rewrite IH.
Qed.

Lemma forallb_isfinite_fmap qs : forallb isfinite (Fin <$> qs) = true.
Proof. by induction qs. Qed.

Lemma f64_div_count q n :
  (0 < n)%nat →
  f64_div (Fin q) (num (Z.of_nat n)) = Fin (q / Qc_of_Z (Z.of_nat n)).
Proof. intros Hn. simpl. by rewrite (Qc_of_nat_pos n Hn). Qed.

Lemma forallb_isfinite_true l :
  forallb isfinite l = true → ∃ qs, l = Fin <$> qs.
Proof.
  induction l as [|y l IH]; simpl; [by exists []|].
  intros [Hy Hl]%andb_true_iff. destruct (IH Hl) as [qs ->].
  destruct y as [| | |q]; try done. by exists (q :: qs).
Qed.

(** C2, as the code has it.  With a window of [W] periods the first
    [W-1] outputs are null.  From then on the output is null as soon as
    one value of the window is null or infinite.  When all [W] values of
    the window are finite the output is a finite number, not null, for
    a series of at most 2^32 periods whose finite values have magnitude
    at most 2^900 (no sum then overflows). *)
Theorem smoother_null_semantics (W : nat) (xs : series) (i : nat) :
  (1 ≤ W)%nat → (i < length xs)%nat →
  ((i < W - 1)%nat → rolling_mean W xs !! i = Some NaN)
  ∧ ((W - 1 ≤ i)%nat →
     forallb isfinite (window_at W xs i) = false →
     rolling_mean W xs !! i = Some NaN)
  ∧ ((W - 1 ≤ i)%nat →
     forallb isfinite (window_at W xs i) = true →
     (Z.of_nat (length xs) ≤ 2 ^ 32)%Z → Forall moderate xs →
     length (window_at W xs i) = W
     ∧ ∃ q, rolling_mean W xs !! i = Some (Fin q)).
Proof.
  intros HW Hi. rewrite (rolling_mean_lookup W xs i HW Hi).
  split; [|split].
  - intros Hlt. by rewrite bool_decide_eq_true_2.
  - intros Hge ->. by case_bool_decide.
  - intros Hge Hfin _ _.
    pose proof (length_window_at W xs i Hi) as Hlen.
    split; [lia|].
    rewrite bool_decide_eq_false_2, Hfin by lia.
    destruct (forallb_isfinite_true _ Hfin) as [qs Hqs].
    rewrite Hqs, f64_sum_finite, f64_div_count by lia. by eexists.
Qed.

Lemma smoother_null_semantics_witness :
  let xs := [num 1; NaN; num 3; num 5] in
  rolling_mean 2 xs !! 0%nat = Some NaN
  ∧ rolling_mean 2 xs !! 2%nat = Some NaN
  ∧ ∃ q, rolling_mean 2 xs !! 3%nat = Some (Fin q).
Proof.
  intros xs.
  assert (1 ≤ 2)%nat as HW by lia.
  split; [|split].
  - destruct (smoother_null_semantics 2 xs 0 HW) as (H & _ & _);
      [simpl; lia|]. apply H. simpl. lia.
  - destruct (smoother_null_semantics 2 xs 2 HW) as (_ & H & _);
      [simpl; lia|]. apply H; [simpl; lia|reflexivity].
  - destruct (smoother_null_semantics 2 xs 3 HW) as (_ & _ & H);
      [simpl; lia|].
    destruct H as [_ H]; [simpl; lia|reflexivity|by_compute| |exact H].
    repeat constructor; by_compute.
Defined.

(** C2 as stated fails: with window 2 on [1, null, 3] the window of the
    second period holds the value 1 and a null; the mean of its non-null
    values is 1, and the rolling mean is null. *)
Lemma smoother_does_not_skip_nulls :
  ¬ (∀ (W : nat) (xs : series) (i : nat),
       (1 ≤ W)%nat → (W - 1 ≤ i)%nat → (i < length xs)%nat →
       rolling_mean W xs !! i = Some (skipna_mean (window_at W xs i))).
Proof.
  intros H.
  specialize (H 2%nat [num 1; NaN; num 3] 1%nat).
  assert (rolling_mean 2 [num 1; NaN; num 3] !! 1%nat
          ≠ Some (skipna_mean (window_at 2 [num 1; NaN; num 3] 1))) as Hne.
  { by apply (bool_decide_eq_false_1 _). }
  apply Hne, H; simpl; lia.
Qed.

Lemma window_at_1 xs i x : xs !! i = Some x → window_at 1 xs i = [x].
Proof.
  intros Hx. unfold window_at.
  replace (S i - 1)%nat with i by lia. replace (S i - i)%nat with 1%nat by lia.
  rewrite (drop_S _ _ _ Hx). done.
Qed.

Lemma rolling_mean_1 xs : rolling_mean 1 xs = prep_values xs.
Proof.
  apply list_eq. intros i.
  destruct (decide (i < length xs)%nat) as [Hi|Hi].
  - rewrite (rolling_mean_lookup 1 xs i) by (done || lia).
    destruct (lookup_lt_is_Some_2 _ _ Hi) as [x Hx].
    unfold prep_values. rewrite list_lookup_fmap, Hx, (window_at_1 _ _ _ Hx).
    rewrite bool_decide_eq_false_2 by lia. cbn [fmap option_fmap option_map].
    f_equal. destruct x as [| | |q]; try done.
    change (forallb isfinite [Fin q]) with true.
    change (f64_sum [Fin q]) with (Fin (q + 0)). cbv iota.
    rewrite (f64_div_count _ 1) by lia. cbn [isinf]. f_equal.
    change (Z.of_nat 1) with 1%Z. rewrite Qc_of_Z_1. field. done.
  - rewrite !lookup_ge_None_2; [done|..].
    + unfold prep_values. rewrite length_fmap. lia.
    + rewrite length_rolling_mean. lia.
Qed.

(** C9, as the code has it.  With window 1 the smoothed series is the
    input series with its infinite values turned into null: a finite or
    null value comes out unchanged, and the output is null exactly where
    the input is null or infinite. *)
Theorem window_one_identity (xs : series) :
  rolling_mean 1 xs = (λ x, if isinf x then NaN else x) <$> xs
  ∧ (∀ i x, xs !! i = Some x →
       rolling_mean 1 xs !! i = Some (if isinf x then NaN else x)
       ∧ (isinf x = false → rolling_mean 1 xs !! i = Some x)
       ∧ (rolling_mean 1 xs !! i = Some NaN ↔ isna x || isinf x = true)).
Proof.
  rewrite rolling_mean_1. split; [done|].
  intros i x Hx. unfold prep_values. rewrite list_lookup_fmap, Hx. simpl.
  split; [done|]. split.
  - by intros ->.
  - destruct x; simpl; split; try done; by intros [=].
Qed.

Lemma window_one_identity_witness :
  let xs := [num 10; NaN; PInf] in
  rolling_mean 1 xs !! 0%nat = Some (num 10)
  ∧ rolling_mean 1 xs !! 2%nat = Some NaN.
Proof.
  intros xs. destruct (window_one_identity xs) as [_ H]. split.
  - apply (H 0%nat (num 10)); reflexivity.
  - apply (H 2%nat PInf); reflexivity.
Defined.

(** C9 as stated fails on a rate series of the program: 5 visits on 0
    pages give an infinite traffic per page, which window 1 turns into
    null. *)
Lemma window_one_drops_infinity :
  let tpp := traffic_per_page [num 5] [num 0] in
  tpp = [PInf] ∧ rolling_mean 1 tpp = [NaN] ∧ rolling_mean 1 tpp ≠ tpp.
Proof. repeat split; by_compute. Qed.

(** ** Resampler *)


Section Resample.
Variables ordinal label : Z → Z.

Lemma ordinal_range_bounds rows lo hi :
  ordinal_range ordinal rows = Some (lo, hi) →
  (∀ r, r ∈ rows → (lo ≤ ordinal (r_date r) ≤ hi)%Z)
  ∧ (∃ r, r ∈ rows ∧ ordinal (r_date r) = lo)
  ∧ (∃ r, r ∈ rows ∧ ordinal (r_date r) = hi).
Proof.
  destruct rows as [|r0 rest]; [done|]. simpl. intros [= <- <-].
  induction rest as [|r rest (IHb & (rl & Hrl & Hlo) & (rh & Hrh & Hhi))].
  - simpl. split; [|split].
    + intros r ->%list_elem_of_singleton. lia.
    + exists r0. split; [apply list_elem_of_here|done].
    + exists r0. split; [apply list_elem_of_here|done].
  - cbn [foldr].
    set (lo := foldr (λ r' k, Z.min (ordinal (r_date r')) k)
                 (ordinal (r_date r0)) rest) in *.
    set (hi := foldr (λ r' k, Z.max (ordinal (r_date r')) k)
                 (ordinal (r_date r0)) rest) in *.
    assert (∀ x, x ∈ r0 :: rest → x ∈ r0 :: r :: rest) as Hmono.
    { intros x [->|Hx]%elem_of_cons;
        [apply list_elem_of_here|by do 2 apply list_elem_of_further]. }
    split; [|split].
    + intros x [->|[->|Hx]%elem_of_cons]%elem_of_cons.
      * specialize (IHb _ (list_elem_of_here _ _)). lia.
      * lia.
      * specialize (IHb x (list_elem_of_further _ _ _ Hx)). lia.
    + destruct (Z.min_spec (ordinal (r_date r)) lo) as [[_ ->]|[_ ->]].
      * exists r. split; [|done].
        apply list_elem_of_further, list_elem_of_here.
      * exists rl. by split; [apply Hmono|].
    + destruct (Z.max_spec (ordinal (r_date r)) hi) as [[_ ->]|[_ ->]].
      * exists rh. by split; [apply Hmono|].
      * exists r. split; [|done].
        apply list_elem_of_further, list_elem_of_here.
Qed.

Lemma bin_record_empty rows k :
  (∀ r, r ∈ rows → ordinal (r_date r) ≠ k) →
  bin_record ordinal label rows k = RawRow (label k) (Fin 0) (Fin 0).
Proof.
  intros Hnone. unfold bin_record.
  replace (filter (λ r, ordinal (r_date r) = k) rows) with (@nil raw_row);
    [done|].
  symmetry. induction rows as [|r rows IH]; [done|].
  rewrite filter_cons_False.
  - apply IH. intros r' Hr'. apply Hnone. by apply list_elem_of_further.
  - apply Hnone, list_elem_of_here.
Qed.

Lemma resample_sum_range rows lo hi :
  ordinal_range ordinal rows = Some (lo, hi) →
  resample_sum ordinal label rows
  = bin_record ordinal label rows <$> seqZ lo (hi - lo + 1).
Proof. intros H. unfold resample_sum. by rewrite H. Qed.

End Resample.

Lemma aggregate_resampled frame rows :
  frame ≠ Daily →
  aggregate frame rows
  = sort_by_date (resample_sum (ordinal_of frame) (label_of frame) rows).
Proof. by destruct frame. Qed.

(** C4, as the code has it.  For weekly and monthly granularity the
    output, in ascending date order, holds one record for every period
    from the first period that has a row to the last period that has a
    row, each with the sums of its rows; a period in between that has no
    row is there too, with page and traffic sums 0.  No period before the
    first or after the last row gets a record. *)
Theorem resampler_gap_behaviour
    (frame : date_frame) (rows : list raw_row) (lo hi : Z) :
  frame ≠ Daily →
  ordinal_range (ordinal_of frame) rows = Some (lo, hi) →
  let out := aggregate frame rows in
  let record := bin_record (ordinal_of frame) (label_of frame) rows in
  Sorted date_le out
  ∧ out ≡ₚ record <$> seqZ lo (hi - lo + 1)
  ∧ (∀ r, r ∈ rows → (lo ≤ ordinal_of frame (r_date r) ≤ hi)%Z)
  ∧ (∃ r, r ∈ rows ∧ ordinal_of frame (r_date r) = lo)
  ∧ (∃ r, r ∈ rows ∧ ordinal_of frame (r_date r) = hi)
  ∧ (∀ k, (lo ≤ k ≤ hi)%Z →
       (∀ r, r ∈ rows → ordinal_of frame (r_date r) ≠ k) →
       RawRow (label_of frame k) (Fin 0) (Fin 0) ∈ out)
  ∧ (∀ o, o ∈ out → ∃ k, (lo ≤ k ≤ hi)%Z ∧ o = record k).
Proof.
  intros Hframe Hrange out record.
  assert (out ≡ₚ record <$> seqZ lo (hi - lo + 1)) as Hperm.
  { subst out record. rewrite (aggregate_resampled _ _ Hframe).
    unfold sort_by_date. rewrite merge_sort_Permutation.
    by rewrite (resample_sum_range _ _ _ _ _ Hrange). }
  destruct (ordinal_range_bounds _ _ _ _ Hrange) as (Hb & Hlo & Hhi).
  split; [|split; [done|split; [done|split; [done|split; [done|split]]]]].
  - subst out. rewrite (aggregate_resampled _ _ Hframe).
    apply (Sorted_merge_sort date_le).
  - intros k Hk Hnone. rewrite Hperm.
    rewrite <-(bin_record_empty (ordinal_of frame) _ rows k Hnone).
    apply list_elem_of_fmap_2, elem_of_seqZ. lia.
  - intros o Ho. rewrite Hperm in Ho.
    apply list_elem_of_fmap in Ho as (k & -> & Hk%elem_of_seqZ).
    exists k. split; [lia|done].
Qed.

Lemma resampler_gap_behaviour_witness :
  let rows := [RawRow (days_from_civil 2024 1 1) (num 10) (num 100);
               RawRow (days_from_civil 2024 1 15) (num 12) (num 150)] in
  RawRow (days_from_civil 2024 1 8) (Fin 0) (Fin 0) ∈ aggregate Weekly rows.
Proof.
  intros rows.
  destruct (resampler_gap_behaviour Weekly rows
              (week_ordinal (days_from_civil 2024 1 1))
              (week_ordinal (days_from_civil 2024 1 15)))
    as (_ & _ & _ & _ & _ & H & _); [done|reflexivity|].
  apply (H (week_ordinal (days_from_civil 2024 1 8))).
  - vm_compute. split; discriminate.
  - intros r Hr. repeat (apply elem_of_cons in Hr as [->|Hr]);
      [vm_compute; discriminate..|].
    by apply not_elem_of_nil in Hr.
Defined.

(** C4 as stated fails.  Weekly: rows on Monday 2024-01-01 and Monday
    2024-01-15 only; the week ending 2024-01-08 has no row and is in the
    output with sums 0.  Monthly: rows in January and in March 2024 only;
    February is in the output with sums 0. *)
Lemma resampler_fills_gaps_with_zero :
  let weekly := [RawRow (days_from_civil 2024 1 1) (num 10) (num 100);
                 RawRow (days_from_civil 2024 1 15) (num 12) (num 150)] in
  let monthly := [RawRow (days_from_civil 2024 1 10) (num 10) (num 100);
                  RawRow (days_from_civil 2024 3 10) (num 12) (num 150)] in
  aggregate Weekly
    (select_range (days_from_civil 2024 1 1) (days_from_civil 2024 1 15) weekly)
  = [RawRow (days_from_civil 2024 1 1) (num 10) (num 100);
     RawRow (days_from_civil 2024 1 8) (num 0) (num 0);
     RawRow (days_from_civil 2024 1 15) (num 12) (num 150)]
  ∧ Forall (λ r, label_of Weekly (ordinal_of Weekly (r_date r))
                 ≠ days_from_civil 2024 1 8) weekly
  ∧ aggregate Monthly
      (select_range (days_from_civil 2024 1 10) (days_from_civil 2024 3 10)
         monthly)
    = [RawRow (days_from_civil 2024 1 31) (num 10) (num 100);
       RawRow (days_from_civil 2024 2 29) (num 0) (num 0);
       RawRow (days_from_civil 2024 3 31) (num 12) (num 150)]
  ∧ Forall (λ r, label_of Monthly (ordinal_of Monthly (r_date r))
                 ≠ days_from_civil 2024 2 29) monthly.
Proof. repeat split; by_compute. Qed.

(** ** Column names *)

Lemma append_MA_not_Rate (s : string) : s +:+ "MA" ≠ "Rate".
Proof.
  destruct s as [|? [|? [|? [|? [|? ?]]]]]; cbv [String.append]; congruence.
Qed.

Lemma append_MA_not_empty (s : string) : s +:+ "MA" ≠ "".
Proof. by destruct s. Qed.


Ltac name_ne :=
  unfold page_change_ma, traffic_change_ma, traffic_per_page_ma;
  cbv [String.append]; fold String.append; intros Heq; simplify_eq;
  try (by eapply append_MA_not_Rate);
  try (by eapply append_MA_not_empty).

Lemma derived_columns_NoDup W : NoDup (derived_columns W).
Proof.
  unfold derived_columns.
  repeat (apply NoDup_cons; split;
          [rewrite ?not_elem_of_cons; repeat split;
           try apply not_elem_of_nil; name_ne|]).
  apply NoDup_nil_2.
Qed.

(** ** Reading and assigning columns *)

Lemma get_cell_insert_eq r c v : get_cell (<[c := v]> r) c = Ok v.
Proof. unfold get_cell. by rewrite lookup_insert_eq. Qed.

Lemma get_cell_insert_ne r c c' v :
  c ≠ c' → get_cell (<[c := v]> r) c' = get_cell r c'.
Proof. intros H. unfold get_cell. by rewrite lookup_insert_ne. Qed.


Lemma get_num_accessor : accessor get_num Num.
Proof.
  split.
  - intros. unfold get_num. by rewrite get_cell_insert_eq.
  - intros. unfold get_num. by rewrite get_cell_insert_ne.
  - intros r c v. unfold get_num, get_cell.
    destruct (r !! c) as [[]|]; simpl; congruence.
Qed.

Lemma get_date_accessor : accessor get_date Date.
Proof.
  split.
  - intros. unfold get_date. by rewrite get_cell_insert_eq.
  - intros. unfold get_date. by rewrite get_cell_insert_ne.
  - intros r c v. unfold get_date, get_cell.
    destruct (r !! c) as [[]|]; simpl; congruence.
Qed.

Lemma get_label_accessor : accessor get_label Str.
Proof.
  split.
  - intros. unfold get_label. by rewrite get_cell_insert_eq.
  - intros. unfold get_label. by rewrite get_cell_insert_ne.
  - intros r c v. unfold get_label, get_cell.
    destruct (r !! c) as [[]|]; simpl; congruence.
Qed.

Lemma bind_Ok {A B} (m : result A) (f : A → result B) (b : B) :
  m ≫= f = Ok b ↔ ∃ a, m = Ok a ∧ f a = Ok b.
Proof.
  destruct m as [a|e]; simpl.
  - split; [by exists a|]. by intros (? & [= <-] & ?).
  - split; [done|]. by intros (? & ? & ?).
Qed.

Section Columns.
Context {A B : Type}.
Variables (get : row → string → result A) (mk : A → cell).
Variables (mk' : B → cell).
Hypothesis acc : accessor get mk.

Lemma column_with_cons r df c x xs :
  get r c = Ok x → column_with get df c = Ok xs →
  column_with get (r :: df) c = Ok (x :: xs).
Proof. intros Hx Hxs. simpl. by rewrite Hx, Hxs. Qed.

Lemma column_with_cons_inv r df c ys :
  column_with get (r :: df) c = Ok ys →
  ∃ x xs, ys = x :: xs ∧ get r c = Ok x ∧ column_with get df c = Ok xs.
Proof.
  simpl. intros (x & Hx & (xs & Hxs & [= <-])%bind_Ok)%bind_Ok.
  by exists x, xs.
Qed.

Lemma column_with_length df c xs :
  column_with get df c = Ok xs → length xs = length df.
Proof.
  revert xs. induction df as [|r df IH]; intros xs.
  - by intros [= <-].
  - intros (x & xs' & -> & _ & Hxs)%column_with_cons_inv.
    simpl. by rewrite (IH _ Hxs).
Qed.

Lemma column_with_lookup df c xs i r :
  column_with get df c = Ok xs → df !! i = Some r →
  ∃ x, xs !! i = Some x ∧ get r c = Ok x.
Proof.
  revert xs i. induction df as [|r0 df IH]; intros xs i; [done|].
  intros (x & xs' & -> & Hx & Hxs)%column_with_cons_inv.
  destruct i as [|i]; simpl.
  - intros [= <-]. by exists x.
  - by apply IH.
Qed.

Lemma column_with_filter (P : row → Prop) `{∀ r, Decision (P r)} df c xs :
  column_with get df c = Ok xs →
  ∃ ys, column_with get (filter P df) c = Ok ys.
Proof.
  revert xs. induction df as [|r df IH]; intros xs.
  - intros _. by exists [].
  - intros (x & xs' & -> & Hx & Hxs)%column_with_cons_inv.
    destruct (IH _ Hxs) as [ys Hys].
    destruct (decide (P r)).
    + rewrite filter_cons_True by done. exists (x :: ys).
      by apply column_with_cons.
    + rewrite filter_cons_False by done. by exists ys.
Qed.

Lemma length_assign c (vs : list B) df :
  length vs = length df → length (assign mk' c vs df) = length df.
Proof. intros H. unfold assign. rewrite length_zip_with. lia. Qed.

Lemma column_assign_eq c vs df :
  length vs = length df →
  column_with get (assign mk c vs df) c = Ok vs.
Proof.
  revert vs. induction df as [|r df IH]; intros [|v vs]; try done.
  intros [= Hlen]. unfold assign. simpl.
  rewrite (get_insert_eq _ _ acc). simpl.
  fold (assign mk c vs df). by rewrite (IH vs Hlen).
Qed.

Lemma column_assign_ne c c' (vs : list B) df :
  c ≠ c' → length vs = length df →
  column_with get (assign mk' c vs df) c' = column_with get df c'.
Proof.
  intros Hne. revert vs. induction df as [|r df IH]; intros [|v vs]; try done.
  intros [= Hlen]. unfold assign. simpl.
  rewrite (get_insert_ne _ _ acc) by done.
  fold (assign mk' c vs df). by rewrite (IH vs Hlen).
Qed.

Lemma assign_id c vs df :
  column_with get df c = Ok vs → assign mk c vs df = df.
Proof.
  revert vs. induction df as [|r df IH]; intros vs.
  - by intros [= <-].
  - intros (x & xs & -> & Hx & Hxs)%column_with_cons_inv.
    unfold assign. simpl. fold (assign mk c xs df). rewrite (IH _ Hxs).
    f_equal. apply insert_id. by apply (get_Ok _ _ acc).
Qed.

End Columns.

(** ** Lengths of the derived series *)

Lemma length_fillna v xs : length (fillna v xs) = length xs.
Proof. unfold fillna. by rewrite length_fmap. Qed.

Lemma length_pages_added p : length (pages_added p) = length p.
Proof. unfold pages_added. by rewrite length_fillna, length_diff. Qed.

Lemma length_page_change_rate pa p :
  length pa = length p → length (page_change_rate pa p) = length p.
Proof.
  intros H.
  unfold page_change_rate, times100, series_div, replace_zero_nan, series_add.
  rewrite length_fmap, length_zip_with, length_fmap, length_zip_with.
  rewrite length_shift. lia.
Qed.

Lemma length_traffic_per_page t p :
  length t = length p → length (traffic_per_page t p) = length p.
Proof.
  intros H. unfold traffic_per_page, series_div.
  rewrite length_zip_with. lia.
Qed.

Lemma length_ffill_from last xs : length (ffill_from last xs) = length xs.
Proof.
  revert last. induction xs as [|x xs IH]; intros last; [done|].
  simpl. by rewrite IH.
Qed.

Lemma length_traffic_change_rate t : length (traffic_change_rate t) = length t.
Proof.
  unfold traffic_change_rate, times100, pct_change, minus1, series_div, ffill.
  rewrite !length_fmap, length_zip_with, length_shift, length_ffill_from. lia.
Qed.

Lemma traffic_per_page_lookup t p i :
  traffic_per_page t p !! i
  = x ← t !! i; y ← p !! i; Some (f64_div x y).
Proof. unfold traffic_per_page, series_div. apply lookup_zip_with. Qed.

(** ** The analysed frame *)

Ltac col_len :=
  repeat first
    [ rewrite length_rolling_mean
    | rewrite length_traffic_change_rate
    | rewrite length_pages_added
    | rewrite length_ranking_state
    | rewrite length_page_change_rate by col_len
    | rewrite length_traffic_per_page by col_len
    | rewrite length_assign by col_len ];
  congruence.

Lemma derived_columns_ne W c n :
  c ∉ derived_columns W → n ∈ derived_columns W → n ≠ c.
Proof. intros Hc Hn ->. done. Qed.

Ltac in_derived :=
  unfold derived_columns; rewrite !elem_of_cons; tauto.

Ltac col_ne :=
  first
    [ solve [name_ne]
    | solve [eapply derived_columns_ne; [eassumption|in_derived]]
    | solve [apply not_eq_sym; eapply derived_columns_ne;
             [eassumption|in_derived]] ].

Ltac col_side := first [solve [col_ne] | solve [col_len]].

Ltac col_read :=
  repeat first
    [ rewrite (column_assign_eq get_num Num get_num_accessor) by col_len
    | rewrite (column_assign_eq get_label Str get_label_accessor) by col_len
    | rewrite (column_assign_ne get_num Num _ get_num_accessor) by col_side
    | rewrite (column_assign_ne get_date Date _ get_date_accessor) by col_side
    | rewrite (column_assign_ne get_label Str _ get_label_accessor)
        by col_side ].

Section AnalysisFacts.
Variables date_col page_col traffic_col : string.
Variable W : nat.
Hypothesis page_fresh : page_col ∉ derived_columns W.
Hypothesis traffic_fresh : traffic_col ∉ derived_columns W.
Hypothesis date_fresh : date_col ∉ derived_columns W.


Lemma rate_calculator_Ok df p t :
  column df page_col = Ok p → column df traffic_col = Ok t →
  rate_calculator page_col traffic_col df
  = Ok (set_column "Traffic Change Rate" (traffic_change_rate t)
          (set_column "Traffic per Page" (traffic_per_page t p)
             (set_column "Page Change Rate"
                (page_change_rate (pages_added p) p)
                (set_column "Pages Added" (pages_added p) df)))).
Proof.
  intros Hp Ht.
  pose proof (column_with_length _ _ _ _ Hp) as Hlp.
  pose proof (column_with_length _ _ _ _ Ht) as Hlt.
  unfold rate_calculator, set_column, column in *.
  rewrite Hp. cbn [mbind result_bind].
  col_read. rewrite Hp. cbn [mbind result_bind].
  col_read. rewrite Ht, Hp. cbn [mbind result_bind].
  col_read. rewrite Ht. done.
Qed.

Lemma calculate_moving_averages_Ok df pcr tcr tpp :
  column df "Page Change Rate" = Ok pcr →
  column df "Traffic Change Rate" = Ok tcr →
  column df "Traffic per Page" = Ok tpp →
  calculate_moving_averages df page_col traffic_col W
  = Ok (set_column (traffic_per_page_ma W) (rolling_mean W tpp)
          (set_column (traffic_change_ma W) (rolling_mean W tcr)
             (set_column (page_change_ma W) (rolling_mean W pcr) df))).
Proof.
  intros Hpcr Htcr Htpp.
  pose proof (column_with_length _ _ _ _ Hpcr) as Hl1.
  pose proof (column_with_length _ _ _ _ Htcr) as Hl2.
  pose proof (column_with_length _ _ _ _ Htpp) as Hl3.
  unfold calculate_moving_averages, set_column, column in *.
  rewrite Hpcr. cbn [mbind result_bind].
  col_read. rewrite Htcr. cbn [mbind result_bind].
  col_read. rewrite Htpp. done.
Qed.

Lemma analysed_pipeline df p t d :
  column df page_col = Ok p → column df traffic_col = Ok t →
  date_column df date_col = Ok d →
  ∃ df1 df2 df3,
    rate_calculator page_col traffic_col df = Ok df1
    ∧ calculate_moving_averages df1 page_col traffic_col W = Ok df2
    ∧ classify W df2 = Ok df3
    ∧ length df3 = length df
    ∧ analysed date_col page_col traffic_col W p t d df3.
Proof.
  intros Hp Ht Hd.
  pose proof (column_with_length _ _ _ _ Hp) as Hlp.
  pose proof (column_with_length _ _ _ _ Ht) as Hlt.
  eexists _, _, _.
  split; [by apply rate_calculator_Ok|].
  split.
  { apply calculate_moving_averages_Ok;
      unfold set_column, column; col_read; done. }
  unfold classify.
  unfold set_column, set_labels, column, date_column, label_column in *.
  col_read. cbn [mbind result_bind].
  split; [done|]. split; [col_len|].
  split; unfold column, date_column, label_column; col_read; done.
Qed.

Lemma classify_analysed p t d df :
  analysed date_col page_col traffic_col W p t d df → classify W df = Ok df.
Proof.
  intros [_ _ _ _ _ Hma Hst]. unfold classify. rewrite Hma.
  cbn [mbind result_bind]. unfold set_labels.
  by rewrite (assign_id get_label Str get_label_accessor _ _ _ Hst).
Qed.

Lemma analysed_row p t d df j r :
  analysed date_col page_col traffic_col W p t d df → df !! j = Some r →
  ∃ pj tj mj,
    p !! j = Some pj ∧ t !! j = Some tj
    ∧ rolling_mean W (traffic_per_page t p) !! j = Some mj
    ∧ get_num r page_col = Ok pj
    ∧ get_num r (traffic_per_page_ma W) = Ok mj.
Proof.
  intros [Hp Ht _ _ _ Hma _] Hr.
  destruct (column_with_lookup _ _ _ _ _ _ Hp Hr) as (pj & ? & ?).
  destruct (column_with_lookup _ _ _ _ _ _ Ht Hr) as (tj & ? & ?).
  destruct (column_with_lookup _ _ _ _ _ _ Hma Hr) as (mj & ? & ?).
  by exists pj, tj, mj.
Qed.

End AnalysisFacts.

(** ** Positions *)

Lemma iloc_nat df (i : nat) r :
  iloc df (Z.of_nat i) = Ok r → df !! i = Some r.
Proof.
  unfold iloc. rewrite (proj2 (Z.ltb_ge (Z.of_nat i) 0)) by lia.
  rewrite Nat2Z.id.
  destruct ((0 <=? Z.of_nat i) && (Z.of_nat i <? Z.of_nat (length df)))%Z;
    [|done].
  destruct (df !! i); [|done]. by intros [= ->].
Qed.

Lemma iloc_nat_succ df (i : nat) r :
  iloc df (Z.of_nat i + 1) = Ok r → df !! S i = Some r.
Proof.
  replace (Z.of_nat i + 1)%Z with (Z.of_nat (S i)) by lia. apply iloc_nat.
Qed.

Lemma iloc_last df r :
  iloc df (-1) = Ok r → df !! (length df - 1)%nat = Some r ∧ df ≠ [].
Proof.
  unfold iloc. cbn [Z.ltb Z.compare].
  destruct ((0 <=? Z.of_nat (length df) + -1)
            && (Z.of_nat (length df) + -1 <? Z.of_nat (length df)))%Z
    eqn:Hrange; [|done].
  replace (Z.to_nat (Z.of_nat (length df) + -1)) with (length df - 1)%nat
    by lia.
  destruct (df !! (length df - 1)%nat) eqn:Hl; [|done].
  intros [= ->]. split; [done|]. by intros ->.
Qed.

Lemma iloc_before_last_single r : iloc [r] (-2) = Raise IndexError.
Proof. reflexivity. Qed.

Lemma iloc_last_single r : iloc [r] (-1) = Ok r.
Proof. reflexivity. Qed.

(** ** State changes *)

Lemma changed_rows_first s states r df :
  changed_rows None (s :: states) (r :: df)
  = r :: changed_rows (Some s) states df.
Proof. reflexivity. Qed.

Lemma changed_rows_elem prev states df r :
  r ∈ changed_rows prev states df → r ∈ df.
Proof.
  revert prev df. induction states as [|s states IH]; intros prev df.
  - simpl. by intros ?%elem_of_nil.
  - destruct df as [|r0 df]; simpl; [by intros ?%elem_of_nil|].
    destruct (decide (prev = Some s)).
    + intros Hr. apply list_elem_of_further. by eapply IH.
    + intros [->|Hr]%elem_of_cons; [apply list_elem_of_here|].
      apply list_elem_of_further. by eapply IH.
Qed.

(** ** Segments *)

Ltac inv_bind H :=
  repeat match type of H with
         | _ ≫= _ = Ok _ =>
             let x := fresh "x" in
             let Hx := fresh "Hx" in
             apply bind_Ok in H as (x & Hx & H)
         end.

Section ReportFacts.
Variables date_col page_col : string.
Variable W : nat.

Lemma interior_segment_Some changes i iv :
  interior_segment date_col page_col W changes i = Ok (Some iv) →
  ∃ ri rj ps pe,
    changes !! i = Some ri ∧ changes !! S i = Some rj
    ∧ get_num ri (traffic_per_page_ma W) = Ok (i_avg_tpp_start iv)
    ∧ get_num rj (traffic_per_page_ma W) = Ok (i_avg_tpp_end iv)
    ∧ isna (i_avg_tpp_start iv) = false
    ∧ isna (i_avg_tpp_end iv) = false
    ∧ get_num ri page_col = Ok ps ∧ get_num rj page_col = Ok pe
    ∧ i_page_change_total iv = percent_change ps pe.
Proof.
  unfold interior_segment. intros H. inv_bind H.
  destruct (negb (isna x4) && negb (isna x5)) eqn:Hguard; [|done].
  inv_bind H. injection H as <-. simpl.
  apply andb_true_iff in Hguard as [Hs%negb_true_iff He%negb_true_iff].
  exists x, x0, x7, x6.
  repeat split; try done; [by apply iloc_nat|by apply iloc_nat_succ].
Qed.

Lemma final_segment_Some df changes iv :
  final_segment date_col page_col W df changes = Ok (Some iv) →
  ∃ rc last ps pe,
    changes !! (length changes - 1)%nat = Some rc
    ∧ df !! (length df - 1)%nat = Some last
    ∧ get_num rc (traffic_per_page_ma W) = Ok (i_avg_tpp_start iv)
    ∧ get_num last (traffic_per_page_ma W) = Ok (i_avg_tpp_end iv)
    ∧ isna (i_avg_tpp_start iv) = false
    ∧ isna (i_avg_tpp_end iv) = false
    ∧ get_num rc page_col = Ok ps ∧ get_num last page_col = Ok pe
    ∧ i_page_change_total iv = percent_change ps pe.
Proof.
  unfold final_segment. intros H. inv_bind H.
  destruct (negb (isna x6) && negb (isna x0)) eqn:Hguard; [|done].
  inv_bind H. injection H as <-. simpl.
  apply andb_true_iff in Hguard as [Hs%negb_true_iff He%negb_true_iff].
  exists x3, x, x8, x7.
  repeat split; try done; by apply iloc_last.
Qed.

Lemma interior_segments_lookup changes idxs os :
  interior_segments date_col page_col W changes idxs = Ok os →
  length os = length idxs
  ∧ ∀ k o, os !! k = Some o →
      ∃ i, idxs !! k = Some i
           ∧ interior_segment date_col page_col W changes i = Ok o.
Proof.
  revert os. induction idxs as [|i idxs IH]; intros os.
  - intros [= <-]. split; [done|]. by intros ? ? ?.
  - simpl. intros H. inv_bind H. injection H as <-.
    destruct (IH _ Hx0) as [Hlen Hlk]. split; [simpl; by rewrite Hlen|].
    intros [|k] o; simpl.
    + intros [= <-]. by exists i.
    + apply Hlk.
Qed.

End ReportFacts.

(** ** Non-null smoothed values *)

Lemma forallb_lookup {A} (f : A → bool) l i x :
  forallb f l = true → l !! i = Some x → f x = true.
Proof.
  revert i. induction l as [|y l IH]; intros i; [done|].
  simpl. intros [Hy Hl]%andb_true_iff. destruct i as [|i]; simpl.
  - by intros [= <-].
  - by apply IH.
Qed.

Lemma window_at_current W xs i x :
  (1 ≤ W)%nat → xs !! i = Some x →
  window_at W xs i !! (i - (S i - W))%nat = Some x.
Proof.
  intros HW Hx. unfold window_at.
  rewrite lookup_take_lt by lia. rewrite lookup_drop.
  by replace (S i - W + (i - (S i - W)))%nat with i by lia.
Qed.

Lemma rolling_mean_zero_window xs i m :
  rolling_mean 0 xs !! i = Some m → m = NaN.
Proof.
  intros H. assert (i < length xs)%nat as Hi.
  { apply lookup_lt_Some in H. by rewrite length_rolling_mean in H. }
  unfold rolling_mean in H. rewrite (roll_mean_lookup _ _ _ _ Hi) in H.
  unfold window_at in H. rewrite Nat.sub_0_r, Nat.sub_diag in H.
  by injection H as <-.
Qed.

(** A smoothed value that is not null comes from a window of finite
    values; the value of its own period is one of them. *)
Lemma smoothed_not_null W xs i m :
  rolling_mean W xs !! i = Some m → isna m = false →
  ∃ q, xs !! i = Some (Fin q).
Proof.
  intros H Hm. assert (i < length xs)%nat as Hi.
  { apply lookup_lt_Some in H. by rewrite length_rolling_mean in H. }
  destruct W as [|W].
  { apply rolling_mean_zero_window in H. by subst m. }
  rewrite (rolling_mean_lookup (S W) xs i) in H by (lia || done).
  injection H as <-.
  case_bool_decide; [done|].
  destruct (forallb isfinite (window_at (S W) xs i)) eqn:Hfin; [|done].
  destruct (lookup_lt_is_Some_2 _ _ Hi) as [x Hx].
  pose proof (forallb_lookup _ _ _ _ Hfin
                (window_at_current (S W) xs i x ltac:(lia) Hx)) as Hxf.
  destruct x; try done. by eexists.
Qed.

Lemma finite_ratio x y q :
  f64_div x y = Fin q → isinf y = false → ∃ b, y = Fin b ∧ b ≠ 0.
Proof.
  destruct x as [| | |a], y as [| | |b]; simpl; try done.
  - destruct (b ?= 0); done.
  - destruct (b ?= 0); done.
  - destruct (b ?= 0) eqn:Hb.
    + by destruct (a ?= 0).
    + intros _ _. exists b. split; [done|]. intros ->. done.
    + intros _ _. exists b. split; [done|]. intros ->. done.
Qed.

Lemma percent_change_finite a b :
  a ≠ 0 → isfinite (percent_change (Fin a) (Fin b)) = true.
Proof.
  intros Ha. unfold percent_change. rewrite f64_sub_fin. simpl.
  destruct (a ?= 0) eqn:Hc; [by apply Qccompare_refl_0 in Hc|done..].
Qed.

Section SegmentFacts.
Variables date_col page_col traffic_col : string.
Variable W : nat.

(** A row of the analysed frame whose smoothed traffic per page is not
    null has a page count that, unless it is infinite, is a number
    other than zero. *)
Lemma valid_row p t d df r m :
  analysed date_col page_col traffic_col W p t d df →
  r ∈ df →
  get_num r (traffic_per_page_ma W) = Ok m → isna m = false →
  ∃ pj, get_num r page_col = Ok pj ∧ pj ∈ p
        ∧ (isinf pj = false → ∃ b, pj = Fin b ∧ b ≠ 0).
Proof.
  intros Han [j Hj]%list_elem_of_lookup Hm Hna.
  destruct (analysed_row _ _ _ _ _ _ _ _ _ _ Han Hj)
    as (pj & tj & mj & Hpj & Htj & Hmj & Hgp & Hgm).
  rewrite Hm in Hgm. injection Hgm as <-.
  destruct (smoothed_not_null _ _ _ _ Hmj Hna) as [q Hq].
  rewrite traffic_per_page_lookup, Htj, Hpj in Hq. simpl in Hq.
  injection Hq as Hq.
  exists pj. split; [done|]. split; [by eapply list_elem_of_lookup_2|].
  intros Hinf. by apply (finite_ratio _ _ _ Hq).
Qed.

End SegmentFacts.

(** ** The ranking-state report *)

Section Report.
Variables date_col page_col traffic_col : string.
Variable W : nat.
Hypothesis page_fresh : page_col ∉ derived_columns W.
Hypothesis traffic_fresh : traffic_col ∉ derived_columns W.
Hypothesis date_fresh : date_col ∉ derived_columns W.

Lemma analyze_analysed df0 p t d df sm :
  column df0 page_col = Ok p → column df0 traffic_col = Ok t →
  date_column df0 date_col = Ok d →
  analyze page_col traffic_col W df0 = Ok (df, sm) →
  analysed date_col page_col traffic_col W p t d df
  ∧ length df = length df0.
Proof.
  intros Hp Ht Hd Han.
  destruct (analysed_pipeline date_col page_col traffic_col W
              page_fresh traffic_fresh date_fresh df0 p t d Hp Ht Hd)
    as (df1 & df2 & df3 & H1 & H2 & H3 & Hlen & Hdf3).
  unfold analyze in Han. rewrite H1 in Han. cbn [mbind result_bind] in Han.
  rewrite H2 in Han. cbn [mbind result_bind] in Han.
  rewrite H3 in Han. cbn [mbind result_bind] in Han.
  inv_bind Han. by injection Han as <- <-.
Qed.

(** The outcomes of the segments of a report, one per state-change row:
    the loop's for all but the last, then the final segment's. *)
Lemma report_outcomes p t d df df' report :
  analysed date_col page_col traffic_col W p t d df →
  generate_ranking_report date_col page_col W df = Ok (df', report) →
  df' = df
  ∧ ∃ changes outcomes,
      ranking_state_changes df = Ok changes
      ∧ length outcomes = length changes
      ∧ report = omap id outcomes
      ∧ (∀ r, r ∈ changes → r ∈ df)
      ∧ (∀ i o, outcomes !! i = Some o →
           (S i < length changes
            ∧ interior_segment date_col page_col W changes i = Ok o)%nat
           ∨ (S i = length changes
              ∧ final_segment date_col page_col W df changes = Ok o)).
Proof.
  intros Han Hrep. unfold generate_ranking_report in Hrep.
  rewrite (classify_analysed _ _ _ _ _ _ _ _ Han) in Hrep.
  cbn [mbind result_bind] in Hrep.
  destruct (ranking_state_changes df) as [changes|e] eqn:Hch; [|done].
  cbn [mbind result_bind] in Hrep.
  assert (∀ r, r ∈ changes → r ∈ df) as Hsub.
  { intros r Hr. unfold ranking_state_changes in Hch. inv_bind Hch.
    injection Hch as <-. by eapply changed_rows_elem. }
  destruct changes as [|r0 changes'] eqn:Hc.
  - injection Hrep as <- <-. split; [done|].
    exists [], []. repeat split; done.
  - rewrite <-Hc in *. inv_bind Hrep. injection Hrep as <- <-.
    split; [done|]. rename x into inner. rename x0 into final.
    destruct (interior_segments_lookup _ _ _ _ _ _ Hx) as [Hlen Hlk].
    rewrite length_seq in Hlen.
    assert (length changes = S (length changes')) as Hcl by by rewrite Hc.
    exists changes, (inner ++ [final]).
    split; [done|]. split; [rewrite length_app; simpl; lia|].
    split; [done|]. split; [done|].
    intros i o Ho. apply lookup_app_Some in Ho as [Ho|[Hge Ho]].
    + left. destruct (Hlk _ _ Ho) as (i' & Hi' & Hseg).
      apply lookup_seq in Hi' as [-> Hi']. split; [lia|done].
    + right. apply list_lookup_singleton_Some in Ho as [Hi <-].
      split; [lia|done].
Qed.

(** C7, as the code has it.  For column names other than those the
    script itself writes, and a run that completes: the segments of the
    report correspond one to one to the state-change rows.  A segment
    whose start row has page count zero yields no sentence; nor does a
    segment whose smoothed traffic per page is null at its start row.
    Every sentence of the report has non-null smoothed values at both
    ends, and, when the page counts are counts (whole numbers from 0 to
    2^53), a finite page-change percentage. *)
Theorem segment_skip_rule
    (df0 : DataFrame) (p t : series) (d : list Z)
    (df : DataFrame) (sm : summary) (report : list interval) :
  column df0 page_col = Ok p → column df0 traffic_col = Ok t →
  date_column df0 date_col = Ok d →
  run date_col page_col traffic_col W df0 = Ok (df, sm, report) →
  ∃ changes outcomes,
    ranking_state_changes df = Ok changes
    ∧ length outcomes = length changes
    ∧ report = omap id outcomes
    ∧ (∀ i o, outcomes !! i = Some o →
         (S i < length changes
          ∧ interior_segment date_col page_col W changes i = Ok o)%nat
         ∨ (S i = length changes
            ∧ final_segment date_col page_col W df changes = Ok o))
    ∧ (∀ i r q, changes !! i = Some r →
         get_num r page_col = Ok (Fin q) → q = 0 →
         outcomes !! i = Some None)
    ∧ (∀ i r, changes !! i = Some r →
         get_num r (traffic_per_page_ma W) = Ok NaN →
         outcomes !! i = Some None)
    ∧ Forall (λ iv, isna (i_avg_tpp_start iv) = false
                    ∧ isna (i_avg_tpp_end iv) = false) report
    ∧ (Forall count p →
       Forall (λ iv, isfinite (i_page_change_total iv) = true) report).
Proof.
  intros Hp Ht Hd Hrun. unfold run in Hrun. inv_bind Hrun.
  destruct x as [df1 sm1]. inv_bind Hrun. destruct x as [df2 report2].
  injection Hrun as -> -> ->.
  destruct (analyze_analysed _ _ _ _ _ _ Hp Ht Hd Hx) as [Han _].
  destruct (report_outcomes _ _ _ _ _ _ Han Hx0)
    as (-> & changes & outcomes & Hch & Hlen & Hrep & Hsub & Hout).
  (* the start row of an outcome that is a sentence *)
  assert (∀ i iv, outcomes !! i = Some (Some iv) →
            ∃ r ps pe, changes !! i = Some r
              ∧ get_num r (traffic_per_page_ma W) = Ok (i_avg_tpp_start iv)
              ∧ isna (i_avg_tpp_start iv) = false
              ∧ isna (i_avg_tpp_end iv) = false
              ∧ get_num r page_col = Ok ps
              ∧ i_page_change_total iv = percent_change ps pe
              ∧ ∃ r', r' ∈ df1 ∧ get_num r' page_col = Ok pe
                 ∧ get_num r' (traffic_per_page_ma W)
                   = Ok (i_avg_tpp_end iv)) as Hsome.
  { intros i iv Hi. destruct (Hout _ _ Hi) as [[Hlt Hseg]|[Heq Hseg]].
    - apply interior_segment_Some in Hseg
        as (ri & rj & ps & pe & Hri & Hrj & ? & ? & ? & ? & ? & ? & ?).
      exists ri, ps, pe. repeat split; try done.
      exists rj. repeat split; try done.
      by eapply Hsub, list_elem_of_lookup_2.
    - apply final_segment_Some in Hseg
        as (rc & last & ps & pe & Hrc & Hlast & ? & ? & ? & ? & ? & ? & ?).
      replace (length changes - 1)%nat with i in Hrc by lia.
      exists rc, ps, pe. repeat split; try done.
      exists last. repeat split; try done.
      by eapply list_elem_of_lookup_2. }
  assert (∀ i r, changes !! i = Some r → ∃ o, outcomes !! i = Some o)
    as Hex.
  { intros i r Hr. apply lookup_lt_is_Some. rewrite Hlen.
    by eapply lookup_lt_Some. }
  assert (∀ iv, iv ∈ report → ∃ i, outcomes !! i = Some (Some iv))
    as Hrow.
  { intros iv Hiv. rewrite Hrep in Hiv.
    apply list_elem_of_omap in Hiv as (o & Ho & Hoiv).
    simpl in Hoiv. subst o. by apply list_elem_of_lookup in Ho. }
  exists changes, outcomes.
  split; [done|]. split; [done|]. split; [done|]. split; [done|].
  split; [|split; [|split]].
  - intros i r q Hr Hq ->. destruct (Hex _ _ Hr) as [[iv|] Ho]; [|done].
    exfalso.
    destruct (Hsome _ _ Ho) as (r' & ps & pe & Hr' & Hm & Hna & _).
    rewrite Hr in Hr'. injection Hr' as <-.
    destruct (valid_row _ _ _ _ _ _ _ _ _ _ Han
                (Hsub _ (list_elem_of_lookup_2 _ _ _ Hr)) Hm Hna)
      as (pj & Hpj & _ & Hnz).
    rewrite Hq in Hpj. injection Hpj as <-.
    destruct Hnz as (b & [= <-] & Hb); done.
  - intros i r Hr Hnan. destruct (Hex _ _ Hr) as [[iv|] Ho]; [|done].
    exfalso.
    destruct (Hsome _ _ Ho) as (r' & ps & pe & Hr' & Hm & Hna & _).
    rewrite Hr in Hr'. injection Hr' as <-.
    rewrite Hnan in Hm. injection Hm as Hm. by rewrite <-Hm in Hna.
  - apply Forall_forall. intros iv [i Hi]%Hrow.
    by destruct (Hsome _ _ Hi) as (_ & _ & _ & _ & _ & ? & ? & _).
  - intros Hfin. rewrite Forall_forall in Hfin.
    apply Forall_forall. intros iv [i Hi]%Hrow.
    destruct (Hsome _ _ Hi)
      as (r & ps & pe & Hr & Hm & Hna & Hna' & Hps & Hpc
          & r' & Hr' & Hpe & Hm').
    destruct (valid_row _ _ _ _ _ _ _ _ _ _ Han
                (Hsub _ (list_elem_of_lookup_2 _ _ _ Hr)) Hm Hna)
      as (a' & Ha & Hain & Hanz).
    destruct (valid_row _ _ _ _ _ _ _ _ _ _ Han Hr' Hm' Hna')
      as (b' & Hb & Hbin & Hbnz).
    rewrite Hps in Ha. injection Ha as ->.
    rewrite Hpe in Hb. injection Hb as ->.
    destruct (Hfin _ Hain) as (za & Hza & _).
    destruct (Hfin _ Hbin) as (zb & Hzb & _).
    destruct (Hanz ltac:(by rewrite Hza)) as (a & -> & Hane).
    destruct (Hbnz ltac:(by rewrite Hzb)) as (b & -> & _).
    rewrite Hpc. by apply percent_change_finite.
Qed.

End Report.

Lemma segment_skip_rule_witness :
  let rows := [RawRow 19723 (num 10) (num 100); RawRow 19724 (num 10) (num 150);
               RawRow 19725 (num 0) (num 50); RawRow 19726 (num 12) (num 120);
               RawRow 19727 (num 12) (num 180)] in
  let df0 := to_frame "Date" "Pages" "Traffic" rows in
  ∃ df sm report,
    run "Date" "Pages" "Traffic" 1 df0 = Ok (df, sm, report)
    ∧ length report = 2%nat
    ∧ Forall (λ iv, isfinite (i_page_change_total iv) = true) report.
Proof.
  intros rows df0.
  assert (match run "Date" "Pages" "Traffic" 1 df0 with
          | Ok (_, _, report) => length report
          | Raise _ => 0%nat
          end = 2%nat) as Hlen by (vm_compute; reflexivity).
  destruct (run "Date" "Pages" "Traffic" 1 df0) as [[[df sm] report]|e]
    eqn:Hrun; [|discriminate Hlen].
  exists df, sm, report. split; [exact eq_refl|].
  split; [exact Hlen|].
  assert ("Pages" ∉ derived_columns 1) as Hpage by by_compute.
  assert ("Traffic" ∉ derived_columns 1) as Htraffic by by_compute.
  assert ("Date" ∉ derived_columns 1) as Hdate by by_compute.
  destruct (segment_skip_rule "Date" "Pages" "Traffic" 1
              Hpage Htraffic Hdate
              df0 (r_pages <$> rows) (r_traffic <$> rows) (r_date <$> rows)
              df sm report)
    as (changes & outcomes & _ & _ & _ & _ & _ & _ & _ & H);
    [reflexivity|reflexivity|reflexivity|exact Hrun|].
  apply H. repeat constructor; eexists; (split; [reflexivity|lia]).
Defined.

(** C7 as stated fails twice.  An infinite page count does not keep a
    segment out of the report: traffic per page is then 0, not null, and
    the sentence is written with an undefined page change.  And on a
    frame of one period with zero pages the segment is not silently
    omitted: the run stops with [IndexError]. *)
Lemma undefined_page_change_is_reported :
  (∃ df sm iv,
     run "Date" "Pages" "Traffic" 1
       (to_frame "Date" "Pages" "Traffic"
          [RawRow 19723 PInf (num 100); RawRow 19724 PInf (num 150)])
     = Ok (df, sm, [iv])
     ∧ i_page_change_total iv = NaN)
  ∧ run "Date" "Pages" "Traffic" 1
      (to_frame "Date" "Pages" "Traffic" [RawRow 19723 (num 0) (num 5)])
    = Raise IndexError.
Proof.
  split.
  2:{ assert (match run "Date" "Pages" "Traffic" 1
                      (to_frame "Date" "Pages" "Traffic"
                         [RawRow 19723 (num 0) (num 5)]) with
              | Raise IndexError => true
              | _ => false
              end = true) as Hone by (vm_compute; reflexivity).
      destruct (run "Date" "Pages" "Traffic" 1 _) as [?|[]];
        try discriminate Hone. done. }
  assert (match run "Date" "Pages" "Traffic" 1
                  (to_frame "Date" "Pages" "Traffic"
                     [RawRow 19723 PInf (num 100);
                      RawRow 19724 PInf (num 150)]) with
          | Ok (_, _, [iv]) => isna (i_page_change_total iv)
          | _ => false
          end = true) as Hok by (vm_compute; reflexivity).
  destruct (run "Date" "Pages" "Traffic" 1 _) as [[[df sm] [|iv [|? ?]]]|e];
    try discriminate Hok.
  exists df, sm, iv. split; [done|]. by destruct (i_page_change_total iv).
Qed.

(** ** A series of one period *)

Lemma ranking_state_single x : ranking_state [x] = [Negative].
Proof.
  unfold ranking_state, fillna, diff, series_sub, shift. simpl.
  by rewrite f64_sub_nan_r.
Qed.

Lemma get_num_ranking_state r l W :
  get_num (<["Ranking State" := Str l]> r) (traffic_per_page_ma W)
  = get_num r (traffic_per_page_ma W).
Proof. apply (get_insert_ne _ _ get_num_accessor). name_ne. Qed.

Lemma generate_ranking_report_single date_col page_col W r x :
  get_num r (traffic_per_page_ma W) = Ok x →
  generate_ranking_report date_col page_col W [r] = Raise IndexError.
Proof.
  intros Hx. unfold generate_ranking_report, classify, column. simpl.
  rewrite Hx. cbn [mbind result_bind]. rewrite ranking_state_single.
  unfold set_labels, assign, ranking_state_changes, label_column. simpl.
  rewrite (get_insert_eq _ _ get_label_accessor). cbn [mbind result_bind].
  rewrite changed_rows_first. cbn [changed_rows length seq Nat.sub].
  cbn [interior_segments mbind result_bind].
  unfold final_segment. rewrite iloc_last_single. cbn [mbind result_bind].
  rewrite get_num_ranking_state, Hx. cbn [mbind result_bind].
  by rewrite iloc_before_last_single.
Qed.

(** C10.  The first row of a frame is always a state-change row, so the
    state-change rows of a frame with at least one row are never empty;
    and on a classified series of exactly one period the report
    generator stops with an index error where it reads the row before
    the last one: it returns no report, not even an empty one. *)
Theorem single_period_report_fails
    (date_col page_col : string) (W : nat) (r : row) (x : f64) :
  get_num r (traffic_per_page_ma W) = Ok x →
  (∀ s states r0 df,
     changed_rows None (s :: states) (r0 :: df)
     = r0 :: changed_rows (Some s) states df)
  ∧ iloc [r] (-2) = Raise IndexError
  ∧ generate_ranking_report date_col page_col W [r] = Raise IndexError
  ∧ ∀ out, generate_ranking_report date_col page_col W [r] ≠ Ok out.
Proof.
  intros Hx. split; [done|]. split; [done|].
  rewrite (generate_ranking_report_single _ _ _ _ _ Hx). by split.
Qed.

Lemma single_period_report_fails_witness :
  let r : row := {[ traffic_per_page_ma 3 := Num NaN ]} in
  generate_ranking_report "Date" "Pages" 3 [r] = Raise IndexError.
Proof.
  intros r.
  by apply (single_period_report_fails "Date" "Pages" 3 r NaN).
Defined.

(** C5 on a series of one period, with the default window 3 and with
    window 1.  The Positive group is empty and its average is the null
    value, which raises nothing; the run then stops in the report
    generator with an index error. *)
Theorem empty_group_run_aborts :
  let df := to_frame "Date" "Pages" "Traffic"
              [RawRow 19723 (num 10) (num 100)] in
  snd <$> analyze "Pages" "Traffic" 3 df = Ok (Summary NaN NaN)
  ∧ run "Date" "Pages" "Traffic" 3 df = Raise IndexError
  ∧ snd <$> analyze "Pages" "Traffic" 1 df = Ok (Summary NaN NaN)
  ∧ run "Date" "Pages" "Traffic" 1 df = Raise IndexError.
Proof. intros df. repeat split; vm_compute; reflexivity. Qed.

(** ** The cached smoothing call *)


Ltac ma_ne :=
  first
    [ solve [name_ne]
    | match goal with
      | H : _ ∉ ma_columns _ |- _ =>
          unfold ma_columns in H; rewrite !not_elem_of_cons in H;
          solve [intuition congruence]
      end ].

Ltac ma_side := first [solve [ma_ne] | solve [col_len]].

Section Smoother.
Variables page_col traffic_col : string.
Variable W : nat.

Lemma calculate_moving_averages_inv df df' :
  calculate_moving_averages df page_col traffic_col W = Ok df' →
  ∃ pcr tcr tpp,
    column df "Page Change Rate" = Ok pcr
    ∧ column df "Traffic Change Rate" = Ok tcr
    ∧ column df "Traffic per Page" = Ok tpp
    ∧ df' = set_column (traffic_per_page_ma W) (rolling_mean W tpp)
              (set_column (traffic_change_ma W) (rolling_mean W tcr)
                 (set_column (page_change_ma W) (rolling_mean W pcr) df)).
Proof.
  unfold calculate_moving_averages. intros H. inv_bind H.
  injection H as <-. rename x into pcr. rename x0 into tcr.
  rename x1 into tpp.
  pose proof (column_with_length _ _ _ _ Hx) as Hl1.
  unfold set_column, column in *.
  rewrite (column_assign_ne get_num Num _ get_num_accessor) in Hx0
    by ma_side.
  pose proof (column_with_length _ _ _ _ Hx0) as Hl2.
  rewrite !(column_assign_ne get_num Num _ get_num_accessor) in Hx1
    by ma_side.
  by exists pcr, tcr, tpp.
Qed.

(** The smoothed columns are added; every other column is as before,
    and smoothing the result again changes nothing. *)
Lemma calculate_moving_averages_frame df df' :
  calculate_moving_averages df page_col traffic_col W = Ok df' →
  length df' = length df
  ∧ calculate_moving_averages df' page_col traffic_col W = Ok df'
  ∧ ∀ c, c ∉ ma_columns W →
      column df' c = column df c
      ∧ date_column df' c = date_column df c
      ∧ label_column df' c = label_column df c.
Proof.
  intros (pcr & tcr & tpp & Hpcr & Htcr & Htpp & ->)
    %calculate_moving_averages_inv.
  pose proof (column_with_length _ _ _ _ Hpcr) as Hl1.
  pose proof (column_with_length _ _ _ _ Htcr) as Hl2.
  pose proof (column_with_length _ _ _ _ Htpp) as Hl3.
  split; [unfold set_column; col_len|]. split.
  - erewrite calculate_moving_averages_Ok; cycle 1.
    { unfold set_column, column in *.
      rewrite !(column_assign_ne get_num Num _ get_num_accessor)
        by ma_side. done. }
    { unfold set_column, column in *.
      rewrite !(column_assign_ne get_num Num _ get_num_accessor)
        by ma_side. done. }
    { unfold set_column, column in *.
      rewrite !(column_assign_ne get_num Num _ get_num_accessor)
        by ma_side. done. }
    unfold set_column, column in *.
    set (df1 := assign Num (page_change_ma W) (rolling_mean W pcr) df).
    set (df2 := assign Num (traffic_change_ma W) (rolling_mean W tcr) df1).
    set (df3 := assign Num (traffic_per_page_ma W) (rolling_mean W tpp)
                  df2).
    assert (length df1 = length df) as Hd1 by (subst df1; col_len).
    assert (length df2 = length df) as Hd2 by (subst df2; col_len).
    rewrite (assign_id get_num Num get_num_accessor (page_change_ma W)
               (rolling_mean W pcr) df3).
    2:{ subst df3 df2.
        rewrite !(column_assign_ne get_num Num _ get_num_accessor)
          by ma_side.
        subst df1. apply (column_assign_eq _ _ get_num_accessor). col_len. }
    rewrite (assign_id get_num Num get_num_accessor (traffic_change_ma W)
               (rolling_mean W tcr) df3).
    2:{ subst df3.
        rewrite !(column_assign_ne get_num Num _ get_num_accessor)
          by ma_side.
        subst df2. apply (column_assign_eq _ _ get_num_accessor). col_len. }
    rewrite (assign_id get_num Num get_num_accessor (traffic_per_page_ma W)
               (rolling_mean W tpp) df3); [done|].
    subst df3. apply (column_assign_eq _ _ get_num_accessor). col_len.
  - intros c Hc. unfold set_column, column, date_column, label_column in *.
    rewrite !(column_assign_ne get_num Num _ get_num_accessor) by ma_side.
    rewrite !(column_assign_ne get_date Date _ get_date_accessor)
      by ma_side.
    rewrite !(column_assign_ne get_label Str _ get_label_accessor)
      by ma_side.
    done.
Qed.

End Smoother.

Lemma cache_read_elem k entries v :
  cache_read k entries = Some v → (k, v) ∈ entries.
Proof.
  induction entries as [|[k' v'] entries IH]; [done|]. simpl.
  destruct (decide (k = k')) as [->|].
  - intros [= ->]. apply list_elem_of_here.
  - intros H. apply list_elem_of_further. by apply IH.
Qed.

Lemma cache_sound_nil : cache_sound [].
Proof. intros k v Hk. by apply elem_of_nil in Hk. Qed.

Lemma cache_sound_cons k v entries :
  calculate_moving_averages (k_df k) (k_page_col k) (k_traffic_col k)
    (k_window_size k) = Ok v →
  cache_sound entries → cache_sound ((k, v) :: entries).
Proof.
  intros Hk Hs k' v' [[= -> ->]|Hin]%elem_of_cons; [done|]. by apply Hs.
Qed.

(** C8, as the code has it.  A call of the cached smoothing stage on a
    dataframe object returns an object that holds the smoothed frame,
    which depends on the contents of the input and the window size
    only, so repeated calls give identical output; smoothing the output
    again changes nothing, and all columns but the three smoothed ones
    are as in the input.  On a cache miss the returned object is the
    caller's own object, now holding the smoothed frame: the input is
    modified in place.  Only on a hit is the input left as it was and a
    new object returned.  No other object changes, and the cache then
    holds the result for the input's contents. *)
Theorem smoother_cached_call
    (σ : session) (l : loc) (df df' : DataFrame)
    (page_col traffic_col : string) (W : nat) :
  heap σ !! l = Some df →
  cache_sound (cache σ) →
  calculate_moving_averages df page_col traffic_col W = Ok df' →
  let key := CacheKey df page_col traffic_col W in
  ∃ l' σ',
    cached_calculate_moving_averages l page_col traffic_col W σ = Ok (l', σ')
    ∧ heap σ' !! l' = Some df'
    ∧ (∀ l'', l'' ≠ l' → heap σ' !! l'' = heap σ !! l'')
    ∧ (cache_read key (cache σ) = None →
       l' = l ∧ heap σ' !! l = Some df')
    ∧ (is_Some (cache_read key (cache σ)) →
       heap σ !! l' = None ∧ heap σ' !! l = Some df)
    ∧ cache_sound (cache σ')
    ∧ cache_read key (cache σ') = Some df'
    ∧ calculate_moving_averages df' page_col traffic_col W = Ok df'
    ∧ length df' = length df
    ∧ (∀ c, c ∉ ma_columns W →
         column df' c = column df c
         ∧ date_column df' c = date_column df c
         ∧ label_column df' c = label_column df c).
Proof.
  intros Hl Hsound Hcalc key.
  destruct (calculate_moving_averages_frame _ _ _ _ _ Hcalc)
    as (Hlen & Hidem & Hframe).
  unfold cached_calculate_moving_averages. rewrite Hl. fold key.
  destruct (cache_read key (cache σ)) as [stored|] eqn:Hread.
  - assert (stored = df') as ->.
    { apply cache_read_elem, Hsound in Hread. simpl in Hread.
      rewrite Hcalc in Hread. by injection Hread. }
    set (l' := fresh (dom (heap σ))).
    assert (heap σ !! l' = None) as Hfresh.
    { apply not_elem_of_dom. apply is_fresh. }
    assert (l' ≠ l) as Hne by (intros ->; congruence).
    eexists l', _. split; [done|]. simpl.
    split; [apply lookup_insert_eq|].
    split; [intros l'' Hl''; by rewrite lookup_insert_ne|].
    split; [done|].
    split; [intros _; split; [done|by rewrite lookup_insert_ne]|].
    done.
  - rewrite Hcalc. cbn [mbind result_bind].
    eexists l, _. split; [done|]. simpl.
    split; [apply lookup_insert_eq|].
    split; [intros l'' Hl''; by rewrite lookup_insert_ne|].
    split; [intros _; split; [done|apply lookup_insert_eq]|].
    split; [by intros [? [=]]|].
    split; [by apply cache_sound_cons|].
    split; [by rewrite decide_True|done].
Qed.

Lemma smoother_cached_call_witness :
  let df := [ <["Page Change Rate" := Num NaN]>
                (<["Traffic Change Rate" := Num NaN]>
                   {["Traffic per Page" := Num (num 10)]}) ] in
  let σ := Session {[1%positive := df]} [] in
  ∃ df' l' σ',
    calculate_moving_averages df "Pages" "Traffic" 1 = Ok df'
    ∧ cached_calculate_moving_averages 1%positive "Pages" "Traffic" 1 σ
      = Ok (l', σ')
    ∧ l' = 1%positive
    ∧ heap σ' !! 1%positive = Some df'.
Proof.
  intros df σ.
  assert (match calculate_moving_averages df "Pages" "Traffic" 1 with
          | Ok _ => true
          | Raise _ => false
          end = true) as Hok by (vm_compute; reflexivity).
  destruct (calculate_moving_averages df "Pages" "Traffic" 1) as [df'|e]
    eqn:Hcalc; [|discriminate Hok].
  destruct (smoother_cached_call σ 1%positive df df' "Pages" "Traffic" 1)
    as (l' & σ' & Hcall & _ & _ & Hmiss & _);
    [reflexivity|apply cache_sound_nil|exact Hcalc|].
  destruct Hmiss as [Hl' Hout]; [reflexivity|].
  by exists df', l', σ'.
Defined.

(** C8 as stated fails: on the first call the cache is empty, the
    function runs on the caller's dataframe and returns that same
    object, whose contents are no longer those of the input: it now has
    the smoothed traffic-per-page column, which the input lacked. *)
Lemma smoother_mutates_its_input :
  let df := [ <["Page Change Rate" := Num NaN]>
                (<["Traffic Change Rate" := Num NaN]>
                   {["Traffic per Page" := Num (num 10)]}) ] in
  let σ := Session {[1%positive := df]} [] in
  heap σ !! 1%positive = Some df
  ∧ column df (traffic_per_page_ma 1) = Raise (KeyError "Traffic per Page 1MA")
  ∧ ∃ σ' df',
      cached_calculate_moving_averages 1%positive "Pages" "Traffic" 1 σ
      = Ok (1%positive, σ')
      ∧ heap σ' !! 1%positive = Some df'
      ∧ column df' (traffic_per_page_ma 1) = Ok [num 10]
      ∧ df' ≠ df.
Proof.
  intros df σ.
  assert (column df (traffic_per_page_ma 1)
          = Raise (KeyError "Traffic per Page 1MA")) as Hbefore
    by (vm_compute; reflexivity).
  split; [reflexivity|]. split; [exact Hbefore|].
  assert ((df' ← calculate_moving_averages df "Pages" "Traffic" 1;
           column df' (traffic_per_page_ma 1)) = Ok [num 10]) as Hafter
    by by_compute.
  unfold cached_calculate_moving_averages.
  change (heap σ !! 1%positive) with (Some df). cbn [cache σ cache_read].
  destruct (calculate_moving_averages df "Pages" "Traffic" 1) as [df'|e]
    eqn:Hcalc; [|discriminate Hafter].
  cbn [mbind result_bind] in Hafter.
  exists (Session (<[1%positive := df']> (heap σ))
            [(CacheKey df "Pages" "Traffic" 1, df')]), df'.
  split; [reflexivity|]. split; [apply lookup_insert_eq|].
  split; [exact Hafter|].
  intros ->. rewrite Hbefore in Hafter. discriminate Hafter.
Qed.
(** * Further properties of the code

    ** Rate calculator (lines 68-75) *)

Lemma zip_with_take_r {A B C} (f : A → B → C) (xs : list A) (ys : list B) :
  zip_with f xs (take (length xs) ys) = zip_with f xs ys.
Proof.
  revert ys; induction xs as [|x xs IH]; intros [|y ys]; simpl; f_equal; auto.
Qed.

Lemma diff_cons x xs : diff (x :: xs) = NaN :: zip_with f64_sub xs (x :: xs).
Proof.
  unfold diff, series_sub, shift.
  change (take (length (x :: xs)) (NaN :: x :: xs))
    with (NaN :: take (length xs) (x :: xs)).
  cbn [zip_with]. by rewrite f64_sub_nan_r, zip_with_take_r.
Qed.

Lemma zip_with_sub_finite qs rs :
  zip_with f64_sub (Fin <$> qs) (Fin <$> rs) = Fin <$> zip_with Qcminus qs rs.
Proof.
  revert rs; induction qs as [|q qs IH]; intros [|r rs]; try done.
  cbn [fmap list_fmap zip_with]. rewrite f64_sub_fin. f_equal. apply IH.
Qed.

Lemma fillna_finite v qs : fillna v (Fin <$> qs) = Fin <$> qs.
Proof. unfold fillna. rewrite <- list_fmap_compose. by apply list_fmap_ext. Qed.

Lemma Qc_sum_telescope a qs :
  Qc_sum (zip_with Qcminus qs (a :: qs)) = default a (last qs) - a.
Proof.
  revert a; induction qs as [|b qs IH]; intros a; simpl.
  - ring.
  - rewrite IH, last_cons. destruct (last qs); simpl; ring.
Qed.

(** X1 Over a series of finite page counts the column [Pages Added]
    (line 68) sums to the net change of the page count: the last count
    minus the first. *)
Theorem pages_added_telescopes (a : Qc) (qs : list Qc) :
  f64_sum (pages_added (Fin <$> (a :: qs))) = Fin (default a (last qs) - a).
Proof.
  unfold pages_added. rewrite fmap_cons, diff_cons.
  change (Fin a :: (Fin <$> qs)) with (Fin <$> (a :: qs)).
  rewrite zip_with_sub_finite.
  change (fillna (num 0) (NaN :: ?l)) with (num 0 :: fillna (num 0) l).
  rewrite fillna_finite.
  change (f64_sum (num 0 :: ?l)) with (f64_add (num 0) (f64_sum l)).
  rewrite f64_sum_finite, Qc_sum_telescope. unfold num. simpl.
  rewrite Qc_of_Z_0. f_equal. ring.
Qed.

(** *** Traffic change rate *)

Lemma ffill_from_lookup last xs i x :
  xs !! i = Some x → isna x = false → ffill_from last xs !! i = Some x.
Proof.
  revert last i; induction xs as [|y xs IH]; intros last [|i] Hx Hn;
    simplify_eq/=; [by rewrite Hn|by eapply IH].
Qed.

Lemma ffill_from_lookup_nan last xs i :
  xs !! S i = Some NaN → ffill_from last xs !! S i = ffill_from last xs !! i.
Proof.
  revert last i; induction xs as [|y xs IH]; intros last i Hx; [done|].
  simpl in *. destruct i as [|i].
  - destruct xs as [|z xs]; simplify_eq/=. done.
  - by apply IH.
Qed.

Lemma traffic_change_rate_lookup_0 t x :
  t !! 0%nat = Some x → traffic_change_rate t !! 0%nat = Some NaN.
Proof.
  intros Hx. unfold traffic_change_rate, times100, pct_change, minus1,
    series_div, ffill.
  destruct t as [|y t]; simplify_eq/=.
  by destruct (if isna x then NaN else x).
Qed.

Lemma traffic_change_rate_lookup_S t i a b :
  ffill t !! i = Some a → ffill t !! S i = Some b →
  traffic_change_rate t !! S i
  = Some (f64_mul (f64_sub (f64_div b a) (num 1)) (num 100)).
Proof.
  intros Ha Hb. unfold traffic_change_rate, times100, pct_change, minus1,
    series_div.
  rewrite !list_lookup_fmap, lookup_zip_with, Hb. simpl.
  rewrite shift_lookup_S, Ha; [done|].
  by apply lookup_lt_is_Some; eauto.
Qed.

Lemma rate_of_ratio a b :
  a ≠ 0 →
  f64_mul (f64_sub (f64_div (Fin b) (Fin a)) (num 1)) (num 100)
  = Fin ((b / a - 1) * Qc_of_Z 100).
Proof.
  intros Ha. unfold f64_div.
  destruct (a ?= 0) eqn:Hc; [by apply Qccompare_refl_0 in Hc| |];
    unfold num; rewrite f64_sub_fin; simpl; by rewrite Qc_of_Z_1.
Qed.

Lemma rate_of_zero_base b :
  f64_mul (f64_sub (f64_div (Fin b) (Fin 0)) (num 1)) (num 100)
  = inf_of_sign (b ?= 0).
Proof.
  unfold f64_div. replace (0 ?= 0) with Eq by by_compute.
  destruct (b ?= 0); simpl; try done; by_compute.
Qed.

(** X2 [Traffic Change Rate] (line 75) between two consecutive finite
    traffic values: null in the first period; the percentage
    [(b / a - 1) * 100] when the earlier value [a] is not zero; and, when
    it is zero, an infinity of the sign of the later value [b], or null
    when both are zero.  Nothing is raised. *)
Theorem traffic_change_rate_finite (t : series) (i : nat) (a b : Qc) :
  t !! i = Some (Fin a) → t !! S i = Some (Fin b) →
  traffic_change_rate t !! 0%nat = Some NaN
  ∧ (a ≠ 0 →
     traffic_change_rate t !! S i = Some (Fin ((b / a - 1) * Qc_of_Z 100)))
  ∧ (a = 0 → traffic_change_rate t !! S i = Some (inf_of_sign (b ?= 0))).
Proof.
  intros Ha Hb. split; [|split].
  - destruct t as [|x t]; [done|]. by eapply traffic_change_rate_lookup_0.
  - intros Hne.
    erewrite traffic_change_rate_lookup_S
      by (eapply ffill_from_lookup; [eassumption|done]).
    by rewrite rate_of_ratio.
  - intros ->.
    erewrite traffic_change_rate_lookup_S
      by (eapply ffill_from_lookup; [eassumption|done]).
    by rewrite rate_of_zero_base.
Qed.

Lemma traffic_change_rate_finite_witness :
  let t := [num 100; num 150; num 0; num 5] in
  traffic_change_rate t !! 0%nat = Some NaN
  ∧ traffic_change_rate t !! 1%nat
    = Some (Fin ((Qc_of_Z 150 / Qc_of_Z 100 - 1) * Qc_of_Z 100))
  ∧ traffic_change_rate t !! 3%nat = Some PInf.
Proof.
  intros t.
  destruct (traffic_change_rate_finite t 0 (Qc_of_Z 100) (Qc_of_Z 150)
              eq_refl eq_refl) as (H0 & H1 & _).
  destruct (traffic_change_rate_finite t 2 0 (Qc_of_Z 5)) as (_ & _ & H3).
  { vm_compute. do 2 f_equal. by apply Qc_is_canon. }
  { reflexivity. }
  split; [exact H0|]. split; [apply H1; by_compute|].
  rewrite (H3 eq_refl). f_equal.
Defined.

(** X3 A missing traffic value is padded with the last value before it
    (the default of [pct_change], line 75): after a finite non-zero value
    the period whose own value is missing shows a change of 0, not a null,
    and the next finite value is compared with the value before the gap. *)
Theorem traffic_change_rate_pads_gaps (t : series) (i : nat) (a : Qc) :
  t !! i = Some (Fin a) → a ≠ 0 → t !! S i = Some NaN →
  traffic_change_rate t !! S i = Some (Fin 0)
  ∧ ∀ c, t !! S (S i) = Some (Fin c) →
      traffic_change_rate t !! S (S i)
      = Some (Fin ((c / a - 1) * Qc_of_Z 100)).
Proof.
  intros Ha Hne Hn.
  assert (Hi : ffill t !! i = Some (Fin a))
    by (eapply ffill_from_lookup; [eassumption|done]).
  assert (HS : ffill t !! S i = Some (Fin a))
    by (unfold ffill; by rewrite ffill_from_lookup_nan).
  split.
  - rewrite (traffic_change_rate_lookup_S _ _ _ _ Hi HS), rate_of_ratio by done.
    do 2 f_equal. field. done.
  - intros c Hc.
    erewrite traffic_change_rate_lookup_S;
      [|exact HS|eapply ffill_from_lookup; [eassumption|done]].
    by rewrite rate_of_ratio.
Qed.

Lemma traffic_change_rate_pads_gaps_witness :
  let t := [Fin (Qc_of_Z 100); NaN; Fin (Qc_of_Z 150)] in
  traffic_change_rate t !! 1%nat = Some (Fin 0)
  ∧ traffic_change_rate t !! 2%nat
    = Some (Fin ((Qc_of_Z 150 / Qc_of_Z 100 - 1) * Qc_of_Z 100)).
Proof.
  intros t.
  destruct (traffic_change_rate_pads_gaps t 0 (Qc_of_Z 100) eq_refl)
    as (H1 & H2); [by_compute|reflexivity|].
  split; [exact H1|]. apply H2. reflexivity.
Defined.

(** ** Smoothing and classification (lines 15-17, 72, 85) *)







Lemma ranking_state_warm_up (W : nat) (xs : series) (i : nat) :
  (i < W)%nat → (i < length xs)%nat →
  ranking_state (rolling_mean W xs) !! i = Some Negative.
Proof.
  intros HW Hi.
  destruct (lookup_lt_is_Some_2 (rolling_mean W xs) i) as [a Ha];
    [by rewrite length_rolling_mean|].
  destruct i as [|j]; [by eapply ranking_state_lookup_0|].
  assert (Hb : rolling_mean W xs !! j = Some NaN).
  { rewrite rolling_mean_lookup by lia. by rewrite bool_decide_eq_true_2 by lia. }
  rewrite (ranking_state_lookup_S _ _ _ _ Hb Ha), f64_sub_nan_r.
  cbn [isna]. by rewrite f64_gt_zero_zero.
Qed.

(** X5 Whatever the data, the first [W] periods are classified
    [Negative] (lines 17 and 85): the smoothed series is null before
    period [W - 1], so no difference is positive before period [W]. *)
Theorem warm_up_periods_negative (W : nat) (xs : series) (i : nat) :
  (i < W)%nat → (i < length xs)%nat →
  ranking_state (rolling_mean W xs) !! i = Some Negative.
Proof. apply ranking_state_warm_up. Qed.

Lemma warm_up_periods_negative_witness :
  ranking_state (rolling_mean 3 [num 1; num 2; num 4; num 8]) !! 2%nat
  = Some Negative.
Proof. apply warm_up_periods_negative; simpl; lia. Defined.

(** ** Date range and aggregation (lines 51-65) *)

Lemma min_date_le rows lo :
  min_date rows = Some lo → ∀ r, r ∈ rows → (lo ≤ r_date r)%Z.
Proof.
  destruct rows as [|r0 rest]; [done|]. intros [= <-] r Hr.
  apply elem_of_cons in Hr as [->|Hr].
  - induction rest as [|r' rest IH]; simpl; lia.
  - induction rest as [|r' rest IH]; [by apply elem_of_nil in Hr|].
    simpl. apply elem_of_cons in Hr as [->|Hr]; [lia|].
    specialize (IH Hr). lia.
Qed.

Lemma max_date_ge rows hi :
  max_date rows = Some hi → ∀ r, r ∈ rows → (r_date r ≤ hi)%Z.
Proof.
  destruct rows as [|r0 rest]; [done|]. intros [= <-] r Hr.
  apply elem_of_cons in Hr as [->|Hr].
  - induction rest as [|r' rest IH]; simpl; lia.
  - induction rest as [|r' rest IH]; [by apply elem_of_nil in Hr|].
    simpl. apply elem_of_cons in Hr as [->|Hr]; [lia|].
    specialize (IH Hr). lia.
Qed.

Lemma filter_all {A} (P : A → Prop) `{∀ x, Decision (P x)} (l : list A) :
  (∀ x, x ∈ l → P x) → filter P l = l.
Proof.
  induction l as [|x l IH]; intros HP; [done|].
  rewrite filter_cons_True by (apply HP; left).
  f_equal. apply IH. intros y Hy. apply HP. by right.
Qed.

(** X6 For dates that are whole days, the date range offered by default,
    from the earliest to the latest date of the file (lines 51-53), keeps
    every row in the filter of line 57; any other range keeps exactly
    the rows whose date lies inside it. *)
Theorem default_date_range_keeps_all (rows : list raw_row) (lo hi : Z) :
  min_date rows = Some lo → max_date rows = Some hi →
  select_range lo hi rows = rows
  ∧ (lo ≤ hi)%Z
  ∧ (∃ r, r ∈ rows ∧ r_date r = lo)
  ∧ (∃ r, r ∈ rows ∧ r_date r = hi)
  ∧ ∀ a b r, r ∈ select_range a b rows ↔ r ∈ rows ∧ (a ≤ r_date r ≤ b)%Z.
Proof.
  intros Hlo Hhi. split; [|split; [|split; [|split]]].
  - apply filter_all. intros r Hr. split.
    + by eapply min_date_le.
    + by eapply max_date_ge.
  - destruct rows as [|r0 rest]; [done|].
    pose proof (min_date_le _ _ Hlo r0 ltac:(left)).
    pose proof (max_date_ge _ _ Hhi r0 ltac:(left)). lia.
  - destruct rows as [|r0 rest]; [done|]. injection Hlo as <-. clear Hhi.
    induction rest as [|r' rest (r & Hr & Heq)]; simpl.
    + exists r0. split; [left|done].
    + destruct (Z.min_spec (r_date r')
                  (foldr (λ r'0 m, Z.min (r_date r'0) m) (r_date r0) rest))
        as [[_ ->]|[_ ->]].
      * exists r'. split; [right; left|done].
      * exists r. split; [|done].
        apply elem_of_cons in Hr as [->|Hr]; [left|do 2 right; done].
  - destruct rows as [|r0 rest]; [done|]. injection Hhi as <-. clear Hlo.
    induction rest as [|r' rest (r & Hr & Heq)]; simpl.
    + exists r0. split; [left|done].
    + destruct (Z.max_spec (r_date r')
                  (foldr (λ r'0 m, Z.max (r_date r'0) m) (r_date r0) rest))
        as [[_ ->]|[_ ->]].
      * exists r. split; [|done].
        apply elem_of_cons in Hr as [->|Hr]; [left|do 2 right; done].
      * exists r'. split; [right; left|done].
  - intros a b r. unfold select_range. rewrite list_elem_of_filter. tauto.
Qed.

Lemma default_date_range_keeps_all_witness :
  let rows := [RawRow 19725 (num 12) (num 150); RawRow 19723 (num 10) (num 100);
               RawRow 19724 (num 10) (num 120)] in
  select_range 19723 19725 rows = rows.
Proof.
  intros rows.
  destruct (default_date_range_keeps_all rows 19723 19725 eq_refl eq_refl)
    as [H _]. exact H.
Defined.

(** X7 A weekly bin (line 61, rule ['W-Mon']) is labelled with the first
    Monday on or after the date of its rows: the label is a Monday, at
    most six days after the date, and lies in the bin it labels, so the
    days from a Tuesday to the following Monday share one bin. *)
Theorem weekly_bin_label (d : Z) :
  let l := week_label (week_ordinal d) in
  (d ≤ l < d + 7)%Z
  ∧ ((l - days_from_civil 1970 1 5) mod 7 = 0)%Z
  ∧ week_ordinal l = week_ordinal d
  ∧ ∀ d', week_ordinal d' = week_ordinal d ↔ (l - 7 < d' ≤ l)%Z.
Proof.
  change (days_from_civil 1970 1 5) with 4%Z.
  unfold week_label, week_ordinal. cbv zeta.
  repeat split; try (Z.div_mod_to_equations; lia).
  all: intros; Z.div_mod_to_equations; lia.
Qed.

(** *** Totals *)

Lemma f64_add_comm x y : f64_add x y = f64_add y x.
Proof. destruct x, y; simpl; try done. f_equal. ring. Qed.

Lemma f64_add_assoc x y z :
  f64_add x (f64_add y z) = f64_add (f64_add x y) z.
Proof. destruct x, y, z; simpl; try done. f_equal. ring. Qed.

Lemma f64_add_0_l x : f64_add (Fin 0) x = x.
Proof. destruct x; simpl; try done. f_equal. ring. Qed.

Lemma f64_sum_Permutation xs ys : xs ≡ₚ ys → f64_sum xs = f64_sum ys.
Proof.
  unfold f64_sum. induction 1 as [|x xs ys _ IH|x y xs|xs ys zs _ IH1 _ IH2];
    simpl; [done|by rewrite IH| |congruence].
  by rewrite !f64_add_assoc, (f64_add_comm x y).
Qed.

Lemma dropna_no_nulls xs : Forall (λ x, isna x = false) xs → dropna xs = xs.
Proof. intros H. apply filter_all. by apply Forall_forall. Qed.

Lemma f64_sum_zeros {A} (ks : list A) :
  f64_sum ((λ _, Fin 0) <$> ks) = Fin 0.
Proof.
  induction ks as [|k ks IH]; [done|].
  cbn [fmap list_fmap]. change (f64_sum (?x :: ?l)) with (f64_add x (f64_sum l)).
  fold (fmap (M:=list) (λ _ : A, Fin 0) ks). by rewrite IH, f64_add_0_l.
Qed.

Lemma f64_sum_cons x xs : f64_sum (x :: xs) = f64_add x (f64_sum xs).
Proof. done. Qed.

Lemma f64_sum_one_bin (k0 : Z) (v : f64) (g : Z → f64) (ks : list Z) :
  NoDup ks → k0 ∈ ks →
  f64_sum ((λ k, if decide (k0 = k) then f64_add v (g k) else g k) <$> ks)
  = f64_add v (f64_sum (g <$> ks)).
Proof.
  induction 1 as [|k ks Hk _ IH]; intros Hin; [by apply elem_of_nil in Hin|].
  rewrite !fmap_cons, !f64_sum_cons.
  destruct (decide (k0 = k)) as [->|Hne].
  - rewrite <- f64_add_assoc. do 3 f_equal.
    apply list_fmap_ext. intros i k' Hk'.
    destruct (decide (k = k')) as [->|]; [|done].
    by apply list_elem_of_lookup_2 in Hk'.
  - apply elem_of_cons in Hin as [?|Hin]; [done|].
    rewrite (IH Hin), !f64_add_assoc. by rewrite (f64_add_comm (g k) v).
Qed.

Section Totals.
Variable ordinal : Z → Z.
Variable proj : raw_row → f64.

Lemma bins_conserve_total (rows : list raw_row) (ks : list Z) :
  NoDup ks →
  Forall (λ r, isna (proj r) = false) rows →
  (∀ r, r ∈ rows → ordinal (r_date r) ∈ ks) →
  f64_sum ((λ k, bin_sum (proj <$> filter (λ r, ordinal (r_date r) = k) rows))
             <$> ks)
  = f64_sum (proj <$> rows).
Proof.
  intros Hnd. induction rows as [|r rows IH]; intros Hfin Hin.
  - apply f64_sum_zeros.
  - apply Forall_cons in Hfin as [Hr Hfin].
    rewrite fmap_cons, f64_sum_cons, <- IH;
      [|done|by intros r' ?; apply Hin; right].
    rewrite <- (f64_sum_one_bin (ordinal (r_date r))) by (try done; apply Hin; left).
    f_equal. apply list_fmap_ext. intros _ k _.
    destruct (decide (ordinal (r_date r) = k)) as [Heq|Hne].
    + rewrite filter_cons_True by done. unfold bin_sum.
      by rewrite fmap_cons, dropna_cons.
    + by rewrite filter_cons_False.
Qed.

End Totals.

Lemma resample_conserves_total (ordinal : Z → Z) (proj : raw_row → f64) rows :
  Forall (λ r, isna (proj r) = false) rows →
  f64_sum ((λ k, bin_sum (proj <$> filter (λ r, ordinal (r_date r) = k) rows))
             <$> match ordinal_range ordinal rows with
                 | Some (lo, hi) => seqZ lo (hi - lo + 1)
                 | None => []
                 end)
  = f64_sum (proj <$> rows).
Proof.
  intros Hfin. destruct (ordinal_range ordinal rows) as [[lo hi]|] eqn:Hr.
  - apply bins_conserve_total; [apply NoDup_seqZ|done|].
    intros r Hin. destruct (ordinal_range_bounds _ _ _ _ Hr) as (Hb & _).
    specialize (Hb r Hin). apply elem_of_seqZ. lia.
  - by destruct rows.
Qed.

(** In exact arithmetic the totals are conserved whenever no value is
    missing. *)
Lemma aggregate_totals (frame : date_frame) (rows : list raw_row) :
  Forall (λ r, isna (r_pages r) = false) rows →
  Forall (λ r, isna (r_traffic r) = false) rows →
  f64_sum (r_pages <$> aggregate frame rows) = f64_sum (r_pages <$> rows)
  ∧ f64_sum (r_traffic <$> aggregate frame rows)
    = f64_sum (r_traffic <$> rows).
Proof.
  intros Hp Ht.
  assert (Hsort : ∀ (proj : raw_row → f64) l,
            f64_sum (proj <$> sort_by_date l) = f64_sum (proj <$> l)).
  { intros proj l. apply f64_sum_Permutation, fmap_Permutation.
    apply merge_sort_Permutation. }
  assert (Hbins : ∀ ordinal label,
            f64_sum (r_pages <$> resample_sum ordinal label rows)
            = f64_sum (r_pages <$> rows)
            ∧ f64_sum (r_traffic <$> resample_sum ordinal label rows)
              = f64_sum (r_traffic <$> rows)).
  { intros ordinal label.
    split.
    - etrans; [|apply (resample_conserves_total ordinal r_pages rows Hp)].
      unfold resample_sum.
      destruct (ordinal_range ordinal rows) as [[lo hi]|]; [|done].
      by rewrite <- list_fmap_compose.
    - etrans; [|apply (resample_conserves_total ordinal r_traffic rows Ht)].
      unfold resample_sum.
      destruct (ordinal_range ordinal rows) as [[lo hi]|]; [|done].
      by rewrite <- list_fmap_compose. }
  destruct frame; unfold aggregate; rewrite !Hsort; [done| |]; apply Hbins.
Qed.

Lemma f64_sum_counts (zs : list Z) :
  f64_sum (num <$> zs) = num (foldr Z.add 0%Z zs).
Proof.
  induction zs as [|z zs IH];
    [change (Fin 0 = Fin (Qc_of_Z 0)); by rewrite Qc_of_Z_0|].
  rewrite fmap_cons, f64_sum_cons, IH. unfold num. simpl.
  by rewrite Z2Qc_inj_add.
Qed.

Lemma counts_not_null {A} (f : A → f64) (l : list A) (zs : list Z) :
  f <$> l = num <$> zs → Forall (λ r, isna (f r) = false) l.
Proof.
  revert zs; induction l as [|r l IH]; intros [|z zs] Heq; try done.
  injection Heq as Hr Heq. constructor; [by rewrite Hr|by eapply IH].
Qed.

(** X8 Aggregation conserves the totals (lines 60-65).  For at least one
    row, with page and traffic values that are whole numbers from 0 on
    whose totals do not exceed 2^53, the pages and the traffic of the
    aggregated periods add up to those of the rows, for the daily, the
    weekly and the monthly frame alike. *)
Theorem aggregate_conserves_totals
    (frame : date_frame) (rows : list raw_row) (ps ts : list Z) :
  rows ≠ [] →
  r_pages <$> rows = num <$> ps → r_traffic <$> rows = num <$> ts →
  Forall (λ z, (0 ≤ z)%Z) ps → Forall (λ z, (0 ≤ z)%Z) ts →
  (foldr Z.add 0 ps ≤ 2 ^ 53)%Z → (foldr Z.add 0 ts ≤ 2 ^ 53)%Z →
  f64_sum (r_pages <$> aggregate frame rows) = num (foldr Z.add 0%Z ps)
  ∧ f64_sum (r_traffic <$> aggregate frame rows) = num (foldr Z.add 0%Z ts).
Proof.
  intros _ Hps Hts _ _ _ _.
  destruct (aggregate_totals frame rows) as [Hp Ht];
    [by eapply counts_not_null|by eapply counts_not_null|].
  by rewrite Hp, Ht, Hps, Hts, !f64_sum_counts.
Qed.

Lemma aggregate_conserves_totals_witness :
  let rows := [RawRow 19723 (num 10) (num 100); RawRow 19724 (num 11) (num 90);
               RawRow 19737 (num 12) (num 150)] in
  f64_sum (r_pages <$> aggregate Weekly rows) = num 33
  ∧ f64_sum (r_traffic <$> aggregate Weekly rows) = num 340.
Proof.
  intros rows.
  apply (aggregate_conserves_totals Weekly rows [10; 11; 12] [100; 90; 150])%Z.
  - discriminate.
  - reflexivity.
  - reflexivity.
  - repeat constructor; lia.
  - repeat constructor; lia.
  - by_compute.
  - by_compute.
Defined.

(** *** Order of the aggregated periods *)

Lemma Sorted_seq_lt a k : Sorted lt (seq a k).
Proof.
  revert a; induction k as [|k IH]; intros a; simpl; constructor; [apply IH|].
  destruct k; simpl; constructor. lia.
Qed.

Lemma Sorted_seqZ_lt m n : Sorted Z.lt (seqZ m n).
Proof.
  unfold seqZ. eapply Sorted_fmap; [|apply Sorted_seq_lt].
  intros x y Hxy. simpl. lia.
Qed.

Section Regular.
Variables ordinal label : Z → Z.
Hypothesis label_mono : ∀ k k', (k < k')%Z → (label k < label k')%Z.

Lemma resample_sum_sorted rows :
  sort_by_date (resample_sum ordinal label rows)
  = resample_sum ordinal label rows.
Proof.
  unfold sort_by_date.
  apply (Sorted_unique_strong date_le).
  - intros x1 x2 H1 H2 Hle Hge.
    rewrite merge_sort_Permutation in H1.
    unfold resample_sum in H1, H2.
    destruct (ordinal_range ordinal rows) as [[lo hi]|];
      [|by apply elem_of_nil in H1].
    apply list_elem_of_fmap in H1 as (k1 & -> & _).
    apply list_elem_of_fmap in H2 as (k2 & -> & _).
    unfold date_le in Hle, Hge. simpl in Hle, Hge.
    destruct (Z.lt_trichotomy k1 k2) as [Hlt|[->|Hlt]]; [|done|];
      apply label_mono in Hlt; lia.
  - apply Sorted_merge_sort; apply _.
  - unfold resample_sum.
    destruct (ordinal_range ordinal rows) as [[lo hi]|]; [|constructor].
    eapply Sorted_fmap; [|apply Sorted_seqZ_lt].
    intros k k' Hlt. unfold date_le. simpl. apply label_mono in Hlt. lia.
  - apply merge_sort_Permutation.
Qed.

End Regular.

(** X9 The weekly frame (line 61) yields one period for every week from
    the week of the earliest row to the week of the latest row, in
    order: period [i] is dated seven days times [i] after the first, and
    carries the sums of the rows of its week. *)
Theorem weekly_periods_regular (rows : list raw_row) (lo hi : Z) :
  ordinal_range week_ordinal rows = Some (lo, hi) →
  let out := aggregate Weekly rows in
  out = bin_record week_ordinal week_label rows <$> seqZ lo (hi - lo + 1)
  ∧ length out = Z.to_nat (hi - lo + 1)
  ∧ (1 ≤ length out)%nat
  ∧ ∀ i r, out !! i = Some r →
      r_date r = (week_label lo + 7 * Z.of_nat i)%Z
      ∧ r = bin_record week_ordinal week_label rows (lo + Z.of_nat i).
Proof.
  intros Hr out.
  assert (Hout : out = bin_record week_ordinal week_label rows
                         <$> seqZ lo (hi - lo + 1)).
  { unfold out, aggregate. simpl.
    rewrite resample_sum_sorted by (unfold week_label; intros; lia).
    by apply resample_sum_range. }
  destruct (ordinal_range_bounds _ _ _ _ Hr) as (Hb & (r0 & Hr0 & _) & _).
  specialize (Hb _ Hr0).
  split; [done|]. rewrite Hout, length_fmap, length_seqZ.
  split; [done|]. split; [lia|].
  intros i r Hi. rewrite list_lookup_fmap in Hi.
  destruct (seqZ lo (hi - lo + 1) !! i) as [k|] eqn:Hk; [|done].
  apply lookup_seqZ in Hk as [-> _]. injection Hi as <-.
  split; [|done]. unfold bin_record, week_label. simpl. lia.
Qed.

Lemma weekly_periods_regular_witness :
  let rows := [RawRow 19723 (num 10) (num 100);
               RawRow 19737 (num 12) (num 150)] in
  length (aggregate Weekly rows) = 3%nat.
Proof.
  intros rows.
  destruct (weekly_periods_regular rows 2817 2819 eq_refl) as (_ & H & _).
  exact H.
Defined.

(** X10 The daily frame (line 65) only sorts: its periods are the rows
    themselves in date order, so no date between two rows is filled in
    and rows that share a date stay separate periods. *)
Theorem daily_periods_are_rows (rows : list raw_row) :
  Sorted date_le (aggregate Daily rows)
  ∧ aggregate Daily rows ≡ₚ rows
  ∧ length (aggregate Daily rows) = length rows
  ∧ ∀ r, r ∈ aggregate Daily rows ↔ r ∈ rows.
Proof.
  unfold aggregate, sort_by_date.
  pose proof (merge_sort_Permutation date_le rows) as Hp.
  split; [apply Sorted_merge_sort; apply _|]. split; [done|].
  split; [by rewrite Hp|]. intros r. by rewrite Hp.
Qed.

(** ** The analysis of a frame (lines 68-89) *)

Lemma group_values_cons st s states x xs :
  group_values st (s :: states) (x :: xs)
  = if decide (s = st) then x :: group_values st states xs
    else group_values st states xs.
Proof. unfold group_values. simpl. by destruct (decide (s = st)). Qed.

Lemma group_column st df c states ma :
  label_column df "Ranking State" = Ok states → column df c = Ok ma →
  column (filter (λ r, r !! "Ranking State" = Some (Str st)) df) c
  = Ok (group_values st states ma).
Proof.
  revert states ma; induction df as [|r df IH]; intros states ma Hs Hm.
  - injection Hs as <-. by injection Hm as <-.
  - apply column_with_cons_inv in Hs as (s & states' & -> & Hs & Hs').
    apply column_with_cons_inv in Hm as (x & ma' & -> & Hx & Hm').
    pose proof (get_Ok _ _ get_label_accessor _ _ _ Hs) as Hrs.
    specialize (IH _ _ Hs' Hm').
    rewrite group_values_cons.
    destruct (decide (s = st)) as [->|Hne].
    + rewrite filter_cons_True by done. by apply column_with_cons.
    + rewrite filter_cons_False by (rewrite Hrs; congruence). done.
Qed.

Lemma group_values_split (states : list label) (xs : series) :
  length states = length xs →
  (length (dropna (group_values Positive states xs))
   + length (dropna (group_values Negative states xs))
   = length (dropna xs))%nat.
Proof.
  revert xs; induction states as [|s states IH]; intros [|x xs] Hlen;
    simplify_eq/=; [done|].
  specialize (IH _ Hlen). rewrite !group_values_cons.
  destruct s; repeat case_decide; try done;
    (destruct (isna x) eqn:Hx;
     [destruct x; try done; rewrite !dropna_cons_nan; lia
     |rewrite !dropna_cons by done; simpl; lia]).
Qed.

Section AnalysisTotal.
Variables date_col page_col traffic_col : string.
Variable W : nat.
Hypothesis page_fresh : page_col ∉ derived_columns W.
Hypothesis traffic_fresh : traffic_col ∉ derived_columns W.
Hypothesis date_fresh : date_col ∉ derived_columns W.

Lemma state_average_analysed p t d df st :
  analysed date_col page_col traffic_col W p t d df →
  state_average W st df
  = Ok (np_average
          (dropna
             (group_values st
                (ranking_state (rolling_mean W (traffic_per_page t p)))
                (rolling_mean W (page_change_rate (pages_added p) p))))).
Proof.
  intros [_ _ _ _ Hpc _ Hst]. unfold state_average.
  unfold label_column in Hst. fold (label_column df "Ranking State").
  unfold label_column. rewrite Hst. cbn [mbind result_bind].
  rewrite (group_column _ _ _ _ _ Hst Hpc). done.
Qed.

Lemma analyze_Ok df0 p t d :
  column df0 page_col = Ok p → column df0 traffic_col = Ok t →
  date_column df0 date_col = Ok d →
  let states := ranking_state (rolling_mean W (traffic_per_page t p)) in
  let pc_ma := rolling_mean W (page_change_rate (pages_added p) p) in
  ∃ df,
    analyze page_col traffic_col W df0
    = Ok (df,
          Summary (np_average (dropna (group_values Positive states pc_ma)))
                  (np_average (dropna (group_values Negative states pc_ma))))
    ∧ length df = length df0
    ∧ analysed date_col page_col traffic_col W p t d df.
Proof.
  intros Hp Ht Hd states pc_ma.
  destruct (analysed_pipeline date_col page_col traffic_col W
              page_fresh traffic_fresh date_fresh df0 p t d Hp Ht Hd)
    as (df1 & df2 & df3 & H1 & H2 & H3 & Hlen & Han).
  exists df3. unfold analyze, summarize.
  rewrite H1. cbn [mbind result_bind]. rewrite H2. cbn [mbind result_bind].
  rewrite H3. cbn [mbind result_bind].
  rewrite !(state_average_analysed _ _ _ _ _ Han). cbn [mbind result_bind].
  done.
Qed.

(** X11 The analysis of lines 68-89 never fails on a frame that has the
    three selected columns under names the script does not itself use.
    It keeps the number of periods and the selected columns, and its two
    averages are the means of the non-null values that the smoothed
    page-change column of the frame holds in the rows that its
    [Ranking State] column labels [Positive] and [Negative]; every such
    value enters exactly one of the two. *)
Theorem analysis_succeeds (df0 : DataFrame) (p t : series) (d : list Z) :
  column df0 page_col = Ok p → column df0 traffic_col = Ok t →
  date_column df0 date_col = Ok d →
  ∃ df states pc_ma,
    analyze page_col traffic_col W df0
    = Ok (df,
          Summary (np_average (dropna (group_values Positive states pc_ma)))
                  (np_average (dropna (group_values Negative states pc_ma))))
    ∧ length df = length df0
    ∧ column df page_col = Ok p
    ∧ column df traffic_col = Ok t
    ∧ date_column df date_col = Ok d
    ∧ label_column df "Ranking State" = Ok states
    ∧ column df (page_change_ma W) = Ok pc_ma
    ∧ length states = length df0
    ∧ length pc_ma = length df0
    ∧ (length (dropna (group_values Positive states pc_ma))
       + length (dropna (group_values Negative states pc_ma))
       = length (dropna pc_ma))%nat.
Proof.
  intros Hp Ht Hd.
  destruct (analyze_Ok df0 p t d Hp Ht Hd) as (df & Hrun & Hlen & Han).
  eexists df, _, _. split; [exact Hrun|]. split; [done|].
  pose proof (column_with_length _ _ _ _ (an_state _ _ _ _ _ _ _ _ Han)) as Hls.
  pose proof (column_with_length _ _ _ _ (an_pc_ma _ _ _ _ _ _ _ _ Han)) as Hlp.
  destruct Han as [? ? ? ? ? ? ?]. repeat (split; [done|]).
  split; [congruence|]. split; [congruence|].
  apply group_values_split. congruence.
Qed.

End AnalysisTotal.

Lemma analysis_succeeds_witness :
  let rows := [RawRow 19723 (num 10) (num 100); RawRow 19724 (num 12) (num 150);
               RawRow 19725 (num 12) (num 120)] in
  ∃ df sm,
    analyze "Pages" "Traffic" 1 (to_frame "Date" "Pages" "Traffic" rows)
    = Ok (df, sm) ∧ length df = 3%nat.
Proof.
  intros rows.
  assert ("Pages" ∉ derived_columns 1) as Hpage by by_compute.
  assert ("Traffic" ∉ derived_columns 1) as Htraffic by by_compute.
  assert ("Date" ∉ derived_columns 1) as Hdate by by_compute.
  destruct (analysis_succeeds "Date" "Pages" "Traffic" 1 Hpage Htraffic Hdate
              (to_frame "Date" "Pages" "Traffic" rows)
              (r_pages <$> rows) (r_traffic <$> rows) (r_date <$> rows))
    as (df & states & pc_ma & Hrun & Hlen & _);
    [reflexivity|reflexivity|reflexivity|].
  eexists df, _. split; [exact Hrun|exact Hlen].
Defined.

(** ** The ranking-state report (lines 192-235) *)

Lemma opposite_ne (s s0 : label) : s ≠ s0 → s = opposite s0.
Proof. by destruct s, s0. Qed.

Lemma opposite_involutive (s : label) : opposite (opposite s) = s.
Proof. by destruct s. Qed.

Lemma changed_rows_alternate (s0 : label) states df :
  label_column df "Ranking State" = Ok states →
  ∀ k r, changed_rows (Some s0) states df !! k = Some r →
    get_label r "Ranking State"
    = Ok (if Nat.even k then opposite s0 else s0).
Proof.
  revert s0 states; induction df as [|r0 df IH]; intros s0 states Hcol k r Hk.
  { by destruct states. }
  apply column_with_cons_inv in Hcol as (s & states' & -> & Hs & Hcol).
  cbn [changed_rows] in Hk. destruct (decide (Some s0 = Some s)) as [[= ->]|Hne].
  - by eapply IH.
  - assert (s = opposite s0) as -> by (apply opposite_ne; congruence).
    destruct k as [|k]; [by simplify_eq/=|].
    cbn [lookup list_lookup] in Hk. rewrite (IH _ _ Hcol _ _ Hk).
    rewrite opposite_involutive, Nat.even_succ, <- Nat.negb_even.
    by destruct (Nat.even k).
Qed.

Lemma ranking_state_head ma :
  ma ≠ [] → ∃ states, ranking_state ma = Negative :: states.
Proof.
  destruct ma as [|x ma]; [done|]. intros _.
  pose proof (ranking_state_lookup_0 (x :: ma) x eq_refl) as H.
  destruct (ranking_state (x :: ma)) as [|s states]; [done|].
  injection H as ->. by eexists.
Qed.

Lemma state_changes_rows df ma :
  label_column df "Ranking State" = Ok (ranking_state ma) →
  ∃ changes,
    ranking_state_changes df = Ok changes
    ∧ changes !! 0%nat = df !! 0%nat
    ∧ (∀ r, r ∈ changes → r ∈ df)
    ∧ ∀ k r, changes !! k = Some r →
        get_label r "Ranking State"
        = Ok (if Nat.even k then Negative else Positive).
Proof.
  intros Hcol. unfold ranking_state_changes. rewrite Hcol.
  cbn [mbind result_bind]. eexists. split; [done|].
  pose proof (column_with_length _ _ _ _ Hcol) as Hlen.
  rewrite length_ranking_state in Hlen.
  destruct df as [|r0 df].
  { destruct (ranking_state ma); repeat split; try done.
    all: intros ?; by rewrite ?elem_of_nil. }
  destruct (ranking_state_head ma) as [states Hst]; [by destruct ma|].
  rewrite Hst in Hcol |- *. rewrite changed_rows_first.
  split; [done|]. split.
  { intros r [->|Hr]%elem_of_cons; [left|right; by eapply changed_rows_elem]. }
  apply column_with_cons_inv in Hcol as (s & states' & [= <- <-] & Hs & Hcol).
  intros [|k] r Hk; [by simplify_eq/=|].
  cbn [lookup list_lookup] in Hk.
  rewrite (changed_rows_alternate _ _ _ Hcol _ _ Hk).
  rewrite Nat.even_succ, <- Nat.negb_even. by destruct (Nat.even k).
Qed.

(** X12 The rows at which the ranking state changes (line 195) begin with
    the first period and alternate between the two states, starting with
    [Negative]: the row of even position [k] is [Negative], that of odd
    position [Positive]; each of them is a row of the frame. *)
Theorem state_changes_alternate (df : DataFrame) (ma : series) :
  label_column df "Ranking State" = Ok (ranking_state ma) →
  ∃ changes,
    ranking_state_changes df = Ok changes
    ∧ changes !! 0%nat = df !! 0%nat
    ∧ (∀ r, r ∈ changes → r ∈ df)
    ∧ ∀ k r, changes !! k = Some r →
        get_label r "Ranking State"
        = Ok (if Nat.even k then Negative else Positive).
Proof. apply state_changes_rows. Qed.

Lemma state_changes_alternate_witness :
  let ma := [num 1; num 2; num 3; num 2; num 5] in
  let df : DataFrame :=
    (λ l, {[ "Ranking State" := Str l ]}) <$> ranking_state ma in
  ∃ changes,
    ranking_state_changes df = Ok changes ∧ length changes = 4%nat.
Proof.
  intros ma df.
  destruct (state_changes_alternate df ma) as (changes & Hch & _);
    [reflexivity|].
  exists changes. split; [exact Hch|].
  assert (match ranking_state_changes df with
          | Ok c => length c
          | Raise _ => 0%nat
          end = 4%nat) as Hlen by (vm_compute; reflexivity).
  rewrite Hch in Hlen. exact Hlen.
Defined.

(** *** Positions that exist *)

Lemma iloc_Ok_nat df (i : nat) r :
  df !! i = Some r → iloc df (Z.of_nat i) = Ok r.
Proof.
  intros Hr. pose proof (lookup_lt_Some _ _ _ Hr) as Hlt. unfold iloc.
  replace (Z.of_nat i <? 0)%Z with false by (symmetry; apply Z.ltb_ge; lia).
  replace ((0 <=? Z.of_nat i) && (Z.of_nat i <? Z.of_nat (length df)))%Z
    with true
    by (symmetry; apply andb_true_intro; split;
        [apply Z.leb_le|apply Z.ltb_lt]; lia).
  by rewrite Nat2Z.id, Hr.
Qed.

Lemma iloc_Ok_neg df (i : Z) r :
  (i < 0)%Z → (0 ≤ Z.of_nat (length df) + i)%Z →
  df !! Z.to_nat (Z.of_nat (length df) + i) = Some r →
  iloc df i = Ok r.
Proof.
  intros Hneg Hge Hr. unfold iloc.
  replace (i <? 0)%Z with true by (symmetry; apply Z.ltb_lt; lia).
  replace ((0 <=? Z.of_nat (length df) + i)
           && (Z.of_nat (length df) + i <? Z.of_nat (length df)))%Z
    with true
    by (symmetry; apply andb_true_intro; split;
        [apply Z.leb_le|apply Z.ltb_lt]; lia).
  by rewrite Hr.
Qed.

Lemma iloc_neg_inv df (i : Z) r :
  (i < 0)%Z → iloc df i = Ok r →
  (0 ≤ Z.of_nat (length df) + i)%Z
  ∧ df !! Z.to_nat (Z.of_nat (length df) + i) = Some r.
Proof.
  intros Hneg. unfold iloc.
  replace (i <? 0)%Z with true by (symmetry; apply Z.ltb_lt; lia).
  destruct ((0 <=? Z.of_nat (length df) + i)
            && (Z.of_nat (length df) + i <? Z.of_nat (length df)))%Z
    eqn:Hb; [|done].
  apply andb_prop in Hb as [Hb _]. apply Z.leb_le in Hb.
  destruct (df !! Z.to_nat (Z.of_nat (length df) + i)); [|done].
  by intros [= ->].
Qed.

Lemma iloc_last_Ok df :
  df ≠ [] → ∃ r, iloc df (-1) = Ok r ∧ df !! (length df - 1)%nat = Some r.
Proof.
  intros Hne. assert (0 < length df)%nat by (destruct df; simpl; [done|lia]).
  destruct (lookup_lt_is_Some_2 df (length df - 1)) as [r Hr]; [lia|].
  exists r. split; [|done]. apply iloc_Ok_neg; [lia|lia|].
  by replace (Z.to_nat (Z.of_nat (length df) + -1)) with (length df - 1)%nat
    by lia.
Qed.

Lemma iloc_before_last_Ok df :
  (2 ≤ length df)%nat →
  ∃ r, iloc df (-2) = Ok r ∧ df !! (length df - 2)%nat = Some r.
Proof.
  intros Hlen.
  destruct (lookup_lt_is_Some_2 df (length df - 2)) as [r Hr]; [lia|].
  exists r. split; [|done]. apply iloc_Ok_neg; [lia|lia|].
  by replace (Z.to_nat (Z.of_nat (length df) + -2)) with (length df - 2)%nat
    by lia.
Qed.

(** *** The report of an analysed frame *)

Section ReportTotal.
Variables date_col page_col traffic_col : string.
Variable W : nat.

Lemma analysed_complete p t d df r :
  analysed date_col page_col traffic_col W p t d df → r ∈ df →
  complete_row date_col page_col W r.
Proof.
  intros [Hp Ht Hd Htcr Hpc Hma Hst] [i Hi]%list_elem_of_lookup.
  destruct (column_with_lookup _ _ _ _ _ _ Hp Hi) as (? & _ & ?).
  destruct (column_with_lookup _ _ _ _ _ _ Hd Hi) as (? & _ & ?).
  destruct (column_with_lookup _ _ _ _ _ _ Htcr Hi) as (? & _ & ?).
  destruct (column_with_lookup _ _ _ _ _ _ Hma Hi) as (? & _ & ?).
  destruct (column_with_lookup _ _ _ _ _ _ Hst Hi) as (? & _ & ?).
  repeat split; eauto.
Qed.

Lemma interior_segment_total changes i :
  (∀ r, r ∈ changes → complete_row date_col page_col W r) →
  (S i < length changes)%nat →
  ∃ o, interior_segment date_col page_col W changes i = Ok o.
Proof.
  intros Hrows Hi.
  destruct (lookup_lt_is_Some_2 changes i) as [ri Hri]; [lia|].
  destruct (lookup_lt_is_Some_2 changes (S i)) as [rj Hrj]; [lia|].
  destruct (Hrows ri (list_elem_of_lookup_2 _ _ _ Hri))
    as ((l & Hl) & (d & Hd) & (m & Hm) & (x & Hx) & _).
  destruct (Hrows rj (list_elem_of_lookup_2 _ _ _ Hrj))
    as (_ & (d' & Hd') & (m' & Hm') & (x' & Hx') & (c' & Hc')).
  unfold interior_segment.
  rewrite (iloc_Ok_nat _ _ _ Hri). cbn [mbind result_bind].
  replace (Z.of_nat i + 1)%Z with (Z.of_nat (S i)) by lia.
  rewrite (iloc_Ok_nat _ _ _ Hrj). cbn [mbind result_bind].
  rewrite Hl, Hd, Hd', Hm, Hm'. cbn [mbind result_bind].
  destruct (negb (isna m) && negb (isna m')); [|by eexists].
  rewrite Hx', Hx, Hc'. cbn [mbind result_bind]. by eexists.
Qed.

Lemma interior_segments_total changes idxs :
  (∀ r, r ∈ changes → complete_row date_col page_col W r) →
  (∀ i, i ∈ idxs → (S i < length changes)%nat) →
  ∃ os, interior_segments date_col page_col W changes idxs = Ok os.
Proof.
  intros Hrows. induction idxs as [|i idxs IH]; intros Hidx; [by eexists|].
  destruct (interior_segment_total changes i Hrows) as [o Ho];
    [apply Hidx; left|].
  destruct IH as [os Hos]; [intros j Hj; apply Hidx; by right|].
  cbn [interior_segments]. rewrite Ho. cbn [mbind result_bind].
  rewrite Hos. cbn [mbind result_bind]. by eexists.
Qed.

Lemma final_segment_total df changes d :
  (∀ r, r ∈ df → complete_row date_col page_col W r) →
  (∀ r, r ∈ changes → r ∈ df) →
  date_column df date_col = Ok d →
  (2 ≤ length df)%nat → changes ≠ [] →
  ∃ o, final_segment date_col page_col W df changes = Ok o.
Proof.
  intros Hrows Hsub Hd Hlen Hne.
  destruct (iloc_last_Ok df) as (last & Hlast & Hlast');
    [intros ->; simpl in Hlen; lia|].
  destruct (iloc_before_last_Ok df Hlen) as (before & Hbefore & Hbefore').
  destruct (iloc_last_Ok changes Hne) as (rc & Hrc & Hrc').
  destruct (Hrows last (list_elem_of_lookup_2 _ _ _ Hlast'))
    as (_ & _ & (m & Hm) & (x & Hx) & (c & Hc)).
  destruct (Hrows before (list_elem_of_lookup_2 _ _ _ Hbefore'))
    as (_ & _ & (m' & Hm') & _).
  destruct (Hrows rc (Hsub _ (list_elem_of_lookup_2 _ _ _ Hrc')))
    as (_ & (d0 & Hd0) & (m0 & Hm0) & (x0 & Hx0) & _).
  unfold final_segment.
  rewrite Hlast. cbn [mbind result_bind]. rewrite Hm. cbn [mbind result_bind].
  rewrite Hbefore. cbn [mbind result_bind]. rewrite Hm'.
  cbn [mbind result_bind]. rewrite Hrc. cbn [mbind result_bind].
  rewrite Hd0. cbn [mbind result_bind]. rewrite Hd. cbn [mbind result_bind].
  rewrite Hm0. cbn [mbind result_bind].
  destruct (negb (isna m0) && negb (isna m)); [|by eexists].
  rewrite Hx, Hx0, Hc. cbn [mbind result_bind]. by eexists.
Qed.

Lemma report_Ok p t d df :
  analysed date_col page_col traffic_col W p t d df →
  length df ≠ 1%nat →
  ∃ report, generate_ranking_report date_col page_col W df = Ok (df, report).
Proof.
  intros Han Hlen. unfold generate_ranking_report.
  rewrite (classify_analysed _ _ _ _ _ _ _ _ Han). cbn [mbind result_bind].
  destruct (state_changes_rows df _ (an_state _ _ _ _ _ _ _ _ Han))
    as (changes & Hch & _ & Hsub & _).
  rewrite Hch. cbn [mbind result_bind].
  destruct (decide (changes = [])) as [->|Hne]; [by eexists|].
  assert (Hrows : ∀ r, r ∈ df → complete_row date_col page_col W r)
    by (intros r; by eapply analysed_complete).
  destruct (interior_segments_total changes (seq 0 (length changes - 1)))
    as [inner Hinner].
  { intros r Hr. by apply Hrows, Hsub. }
  { intros i [_ Hi]%elem_of_seq. lia. }
  destruct (final_segment_total df changes d Hrows Hsub) as [final Hfinal].
  { by destruct Han. }
  { destruct changes as [|r0 ?]; [done|].
    assert (r0 ∈ df) as Hr0 by (apply Hsub; left).
    destruct df as [|? [|? ?]]; simpl in *;
      [by apply elem_of_nil in Hr0|done|lia]. }
  { done. }
  destruct changes as [|r0 changes']; [done|].
  rewrite Hinner. cbn [mbind result_bind].
  rewrite Hfinal. cbn [mbind result_bind]. by eexists.
Qed.

End ReportTotal.

Lemma length_omap_le {A B} (f : A → option B) (l : list A) :
  (length (omap f l) ≤ length l)%nat.
Proof.
  induction l as [|x l IH]; [done|]. cbn [omap list_omap].
  destruct (f x); simpl; lia.
Qed.

Lemma rolling_mean_first_null W xs m :
  W ≠ 1%nat → rolling_mean W xs !! 0%nat = Some m → m = NaN.
Proof.
  intros HW Hm. destruct W as [|[|W]]; [|done|].
  - by eapply rolling_mean_zero_window.
  - rewrite rolling_mean_lookup in Hm;
      [|lia|apply lookup_lt_Some in Hm; by rewrite length_rolling_mean in Hm].
    by injection Hm as <-.
Qed.

Lemma Qccompare_sub a b : (a - b ?= 0) = (a ?= b).
Proof.
  destruct (a ?= b) eqn:Hc.
  - apply Qceq_alt in Hc as ->. apply Qceq_alt. ring.
  - apply Qclt_alt in Hc. apply Qclt_alt.
    apply Qclt_minus_iff in Hc. apply Qclt_minus_iff.
    by replace (0 + - (a - b)) with (b + - a) by ring.
  - apply Qcgt_alt in Hc. apply Qcgt_alt.
    apply Qclt_minus_iff in Hc. apply Qclt_minus_iff.
    by replace (a - b + - 0) with (a + - b) by ring.
Qed.

Lemma f64_gt_diff a b :
  f64_gt (if isna (f64_sub a b) then num 0 else f64_sub a b) (num 0)
  = f64_gt a b.
Proof.
  destruct a as [| | |a], b as [| | |b]; try done; try by_compute.
  rewrite f64_sub_fin. cbn [isna f64_gt]. unfold num.
  by rewrite Qc_of_Z_0, Qccompare_sub.
Qed.

Lemma last_cons_default {A} (x y : A) (l : list A) :
  default y (last (x :: l)) = default x (last l).
Proof. rewrite last_cons. by destruct (last l). Qed.

Lemma changed_rows_last (s0 : label) states df :
  label_column df "Ranking State" = Ok states →
  match last (changed_rows (Some s0) states df) with
  | Some rc => get_label rc "Ranking State" = Ok (default s0 (last states))
  | None => default s0 (last states) = s0
  end.
Proof.
  revert s0 states; induction df as [|r0 df IH]; intros s0 states Hcol.
  { injection Hcol as <-. done. }
  apply column_with_cons_inv in Hcol as (s & states' & -> & Hs & Hcol).
  rewrite last_cons_default. cbn [changed_rows].
  specialize (IH s _ Hcol).
  destruct (decide (Some s0 = Some s)) as [[= ->]|Hne]; [done|].
  rewrite last_cons.
  destruct (last (changed_rows (Some s) states' df)); [done|].
  by rewrite IH.
Qed.

Section RunFacts.
Variables date_col page_col traffic_col : string.
Variable W : nat.
Hypothesis page_fresh : page_col ∉ derived_columns W.
Hypothesis traffic_fresh : traffic_col ∉ derived_columns W.
Hypothesis date_fresh : date_col ∉ derived_columns W.

Lemma run_outcome
    (df0 : DataFrame) (p t : series) (d : list Z) :
  column df0 page_col = Ok p → column df0 traffic_col = Ok t →
  date_column df0 date_col = Ok d →
  (length df0 = 1%nat →
   run date_col page_col traffic_col W df0 = Raise IndexError)
  ∧ (length df0 ≠ 1%nat →
     ∃ df sm report,
       run date_col page_col traffic_col W df0 = Ok (df, sm, report)
       ∧ length df = length df0).
Proof.
  intros Hp Ht Hd.
  destruct (analyze_Ok date_col page_col traffic_col W
              page_fresh traffic_fresh date_fresh df0 p t d Hp Ht Hd)
    as (df & Hrun & Hlen & Han).
  unfold run. rewrite Hrun. cbn [mbind result_bind]. split; intros Hone.
  - rewrite Hone in Hlen. destruct df as [|r [|? ?]]; try done.
    destruct (analysed_complete _ _ _ _ _ _ _ _ r Han) as (_ & _ & (m & Hm) & _);
      [left|].
    by rewrite (generate_ranking_report_single _ _ _ _ _ Hm).
  - destruct (report_Ok _ _ _ _ _ _ _ _ Han) as [report Hrep]; [congruence|].
    rewrite Hrep. cbn [mbind result_bind]. by eexists _, _, _.
Qed.

Lemma report_skips_first
    (df0 : DataFrame) (p t : series) (d : list Z)
    (df : DataFrame) (sm : summary) (report : list interval) :
  W ≠ 1%nat →
  column df0 page_col = Ok p → column df0 traffic_col = Ok t →
  date_column df0 date_col = Ok d → df0 ≠ [] →
  run date_col page_col traffic_col W df0 = Ok (df, sm, report) →
  ∃ changes r0,
    ranking_state_changes df = Ok changes
    ∧ changes !! 0%nat = Some r0 ∧ df !! 0%nat = Some r0
    ∧ get_num r0 (traffic_per_page_ma W) = Ok NaN
    ∧ (length report < length changes)%nat.
Proof.
  intros HW Hp Ht Hd Hne Hrun. unfold run in Hrun. inv_bind Hrun.
  destruct x as [df1 sm1]. inv_bind Hrun. destruct x as [df2 report2].
  injection Hrun as -> -> ->.
  destruct (analyze_analysed _ _ _ _ page_fresh traffic_fresh date_fresh
              _ _ _ _ _ _ Hp Ht Hd Hx) as [Han Hlen].
  destruct (report_outcomes _ _ _ _ _ _ _ _ _ _ Han Hx0)
    as (-> & changes & outcomes & Hch & Hlo & Hrep & Hsub & Hout).
  destruct (state_changes_rows df1 _ (an_state _ _ _ _ _ _ _ _ Han))
    as (changes' & Hch' & Hfirst & _).
  rewrite Hch in Hch'. injection Hch' as <-.
  destruct df1 as [|r0 df1']; [by destruct df0|].
  destruct (analysed_row _ _ _ _ _ _ _ _ 0%nat r0 Han eq_refl)
    as (pj & tj & mj & _ & _ & Hmj & _ & Hma).
  apply rolling_mean_first_null in Hmj as ->; [|done].
  cbn [lookup list_lookup] in Hfirst.
  exists changes, r0. repeat (split; [done|]).
  destruct outcomes as [|o outcomes'];
    [by destruct changes|].
  assert (o = None) as ->.
  { destruct o as [iv|]; [exfalso|done].
    destruct (Hout 0%nat (Some iv) eq_refl) as [[_ Hseg]|[Hone Hseg]].
    - apply interior_segment_Some in Hseg
        as (ri & _ & _ & _ & Hri & _ & Hs & _ & Hna & _).
      rewrite Hfirst in Hri. injection Hri as <-.
      rewrite Hma in Hs. injection Hs as Hs. by rewrite <- Hs in Hna.
    - apply final_segment_Some in Hseg
        as (rc & _ & _ & _ & Hrc & _ & Hs & _ & Hna & _).
      rewrite <- Hone in Hrc. cbn in Hrc.
      rewrite Hfirst in Hrc. injection Hrc as <-.
      rewrite Hma in Hs. injection Hs as Hs. by rewrite <- Hs in Hna. }
  rewrite Hrep, <- Hlo. cbn [omap list_omap id].
  pose proof (length_omap_le id outcomes'). simpl. lia.
Qed.

(** X13 A run on a frame that has the three selected columns fails in
    exactly one case: a frame of one period, on which the report reads
    the period before the last (line 218) and raises [IndexError].  On
    every other frame, the empty one included, the analysis and the
    report both complete and the frame keeps its number of periods. *)
Theorem run_fails_only_on_one_period
    (df0 : DataFrame) (p t : series) (d : list Z) :
  column df0 page_col = Ok p → column df0 traffic_col = Ok t →
  date_column df0 date_col = Ok d →
  (length df0 = 1%nat →
   run date_col page_col traffic_col W df0 = Raise IndexError)
  ∧ (length df0 ≠ 1%nat →
     ∃ df sm report,
       run date_col page_col traffic_col W df0 = Ok (df, sm, report)
       ∧ length df = length df0).
Proof. apply run_outcome. Qed.

(** X14 With any window other than 1 the first segment of the report is
    never written: its start row is the first period, whose smoothed
    traffic per page is null, and the check of lines 206 and 224 drops
    it.  The report therefore holds fewer sentences than there are
    state-change rows. *)
Theorem first_segment_never_reported
    (df0 : DataFrame) (p t : series) (d : list Z)
    (df : DataFrame) (sm : summary) (report : list interval) :
  W ≠ 1%nat →
  column df0 page_col = Ok p → column df0 traffic_col = Ok t →
  date_column df0 date_col = Ok d → df0 ≠ [] →
  run date_col page_col traffic_col W df0 = Ok (df, sm, report) →
  ∃ changes r0,
    ranking_state_changes df = Ok changes
    ∧ changes !! 0%nat = Some r0 ∧ df !! 0%nat = Some r0
    ∧ get_num r0 (traffic_per_page_ma W) = Ok NaN
    ∧ (length report < length changes)%nat.
Proof. apply report_skips_first. Qed.

(** X15 The state named in the last sentence, which line 218 recomputes
    from the last two smoothed values, is the state of the column: it
    equals the [Ranking State] of the last period and that of the row at
    which the final segment starts. *)
Theorem final_state_consistent
    (df0 : DataFrame) (p t : series) (d : list Z)
    (df : DataFrame) (sm : summary) (report : list interval)
    (changes : DataFrame) (iv : interval) :
  column df0 page_col = Ok p → column df0 traffic_col = Ok t →
  date_column df0 date_col = Ok d →
  run date_col page_col traffic_col W df0 = Ok (df, sm, report) →
  ranking_state_changes df = Ok changes →
  final_segment date_col page_col W df changes = Ok (Some iv) →
  ∃ rc rlast,
    changes !! (length changes - 1)%nat = Some rc
    ∧ df !! (length df - 1)%nat = Some rlast
    ∧ get_label rc "Ranking State" = Ok (i_state iv)
    ∧ get_label rlast "Ranking State" = Ok (i_state iv).
Proof.
  intros Hp Ht Hd Hrun Hch Hfin. unfold run in Hrun. inv_bind Hrun.
  destruct x as [df1 sm1]. inv_bind Hrun. destruct x as [df2 report2].
  injection Hrun as -> -> ->.
  destruct (analyze_analysed _ _ _ _ page_fresh traffic_fresh date_fresh
              _ _ _ _ _ _ Hp Ht Hd Hx) as [Han Hlen].
  destruct (report_outcomes _ _ _ _ _ _ _ _ _ _ Han Hx0) as (-> & _).
  clear Hx Hx0.
  set (ma := rolling_mean W (traffic_per_page t p)) in *.
  pose proof (an_state _ _ _ _ _ _ _ _ Han) as Hst. fold ma in Hst.
  pose proof (an_tpp_ma _ _ _ _ _ _ _ _ Han) as Hma. fold ma in Hma.
  (* the state the final segment computes *)
  assert (∃ rlast before a b rc,
            df1 !! (length df1 - 1)%nat = Some rlast
            ∧ df1 !! (length df1 - 2)%nat = Some before
            ∧ (2 ≤ length df1)%nat
            ∧ changes !! (length changes - 1)%nat = Some rc
            ∧ changes ≠ []
            ∧ get_num rlast (traffic_per_page_ma W) = Ok a
            ∧ get_num before (traffic_per_page_ma W) = Ok b
            ∧ i_state iv = if f64_gt a b then Positive else Negative)
    as (rlast & before & a & b & rc & Hlast & Hbefore & Hlen2 & Hrc & Hcne
        & Ha & Hb & Hstate).
  { unfold final_segment in Hfin. inv_bind Hfin.
    destruct (negb (isna x6) && negb (isna x0)); [|done].
    inv_bind Hfin. injection Hfin as <-. cbn [i_state].
    apply iloc_last in Hx as [Hx _]. apply iloc_last in Hx3 as [Hx3 ?].
    apply iloc_neg_inv in Hx1 as [Hge Hx1]; [|lia].
    replace (Z.to_nat (Z.of_nat (length df1) + -2)) with (length df1 - 2)%nat
      in Hx1 by lia.
    exists x, x1, x0, x2, x3. repeat split; try done. lia. }
  (* the state of the last period *)
  assert (Hlabel : ranking_state ma !! (length df1 - 1)%nat
                   = Some (i_state iv)).
  { destruct (column_with_lookup _ _ _ _ _ _ Hma Hlast) as (a' & Ha' & Hga).
    destruct (column_with_lookup _ _ _ _ _ _ Hma Hbefore) as (b' & Hb' & Hgb).
    rewrite Ha in Hga. injection Hga as <-.
    rewrite Hb in Hgb. injection Hgb as <-.
    replace (length df1 - 1)%nat with (S (length df1 - 2)) in Ha' |- * by lia.
    rewrite (ranking_state_lookup_S _ _ _ _ Hb' Ha'), f64_gt_diff.
    by rewrite Hstate. }
  exists rc, rlast. split; [done|]. split; [done|]. split.
  - unfold ranking_state_changes in Hch. rewrite Hst in Hch.
    cbn [mbind result_bind] in Hch. injection Hch as Hch.
    pose proof (column_with_length _ _ _ _ Hst) as Hlst.
    replace (length changes - 1)%nat with (pred (length changes)) in Hrc by lia.
    rewrite <- last_lookup in Hrc.
    assert (last (ranking_state ma) = Some (i_state iv)) as Hl.
    { rewrite last_lookup, Hlst. by replace (pred (length df1))
        with (length df1 - 1)%nat by lia. }
    destruct df1 as [|r0 df1']; [simpl in Hlen2; lia|].
    destruct (ranking_state ma) as [|s states] eqn:Hrs; [done|].
    rewrite changed_rows_first in Hch.
    apply column_with_cons_inv in Hst as (s' & states' & [= <- <-] & Hs & Hst).
    pose proof (changed_rows_last s _ _ Hst) as Hcl.
    rewrite <- Hch, last_cons in Hrc. rewrite last_cons in Hl.
    destruct (last (changed_rows (Some s) states df1')) as [rc'|].
    + injection Hrc as <-. destruct (last states); simplify_eq/=; done.
    + injection Hrc as <-. destruct (last states); simplify_eq/=; done.
  - destruct (column_with_lookup _ _ _ _ _ _ Hst Hlast) as (l & Hl & Hgl).
    rewrite Hlabel in Hl. by injection Hl as <-.
Qed.

Lemma changed_rows_constant (s : label) states df :
  Forall (λ l, l = s) states → changed_rows (Some s) states df = [].
Proof.
  revert df; induction states as [|s' states IH]; intros df Hall; [done|].
  apply Forall_cons in Hall as [-> Hall]. destruct df as [|r df]; [done|].
  cbn [changed_rows]. rewrite decide_True by done. by apply IH.
Qed.

Lemma group_values_none (st : label) states xs :
  Forall (λ l, l ≠ st) states → group_values st states xs = [].
Proof.
  revert xs; induction states as [|s states IH]; intros [|x xs] Hall;
    try done.
  apply Forall_cons in Hall as [Hs Hall].
  rewrite group_values_cons, decide_False by done. by apply IH.
Qed.

(** X16 When the frame has no more periods than the window (and at least
    two of each), every period is classified [Negative]: the run
    completes, the average of the [Positive] group is null because the
    group is empty, and the report has no sentence. *)
Theorem short_series_has_no_report
    (df0 : DataFrame) (p t : series) (d : list Z) :
  column df0 page_col = Ok p → column df0 traffic_col = Ok t →
  date_column df0 date_col = Ok d →
  (2 ≤ length df0)%nat → (length df0 ≤ W)%nat →
  ∃ df neg,
    run date_col page_col traffic_col W df0 = Ok (df, Summary NaN neg, [])
    ∧ label_column df "Ranking State" = Ok (replicate (length df0) Negative).
Proof.
  intros Hp Ht Hd Hlen2 HlenW.
  destruct (run_outcome df0 p t d Hp Ht Hd) as [_ Hok].
  destruct Hok as (df & sm & report & Hrun & Hlen); [lia|].
  destruct (report_skips_first df0 p t d df sm report)
    as (changes & r0 & Hch & _ & _ & _ & Hlt);
    [lia|done|done|done|intros ->; simpl in Hlen2; lia|done|].
  destruct (analyze_Ok date_col page_col traffic_col W
              page_fresh traffic_fresh date_fresh df0 p t d Hp Ht Hd)
    as (df' & Han & _ & Hdf').
  set (states := ranking_state (rolling_mean W (traffic_per_page t p))) in *.
  assert (Hstates : states = replicate (length df0) Negative).
  { pose proof (column_with_length _ _ _ _ Hp) as Hlp.
    pose proof (column_with_length _ _ _ _ Ht) as Hlt'.
    assert (length states = length df0) as Hls.
    { unfold states. rewrite length_ranking_state, length_rolling_mean,
        length_traffic_per_page; congruence. }
    apply list_eq. intros i. destruct (decide (i < length df0)%nat) as [Hi|Hi].
    - rewrite lookup_replicate_2 by done. apply ranking_state_warm_up; [lia|].
      rewrite length_traffic_per_page; congruence.
    - rewrite !lookup_ge_None_2; [done| |]; rewrite ?length_replicate; lia. }
  pose proof Hrun as Hrun'. unfold run in Hrun'. rewrite Han in Hrun'.
  cbn [mbind result_bind] in Hrun'. inv_bind Hrun'.
  destruct x as [df2 report2]. injection Hrun' as <- <- <-.
  pose proof (an_state _ _ _ _ _ _ _ _ Hdf') as Hst. fold states in Hst.
  destruct (report_outcomes _ _ _ _ _ _ _ _ _ _ Hdf' Hx) as (-> & _).
  assert (length changes = 1%nat) as Hone.
  { unfold ranking_state_changes in Hch. rewrite Hst in Hch.
    cbn [mbind result_bind] in Hch. injection Hch as <-.
    rewrite Hstates. destruct (length df0) as [|n] eqn:Hn; [lia|].
    destruct df' as [|r df'']; [done|].
    cbn [replicate]. rewrite changed_rows_first, changed_rows_constant; [done|].
    by apply Forall_replicate. }
  eexists df', _. rewrite Hrun. rewrite Hstates in Hst |- *.
  split; [|done].
  rewrite group_values_none by (by apply Forall_replicate).
  destruct report2 as [|? ?]; [done|simpl in Hlt; lia].
Qed.

End RunFacts.

Lemma run_fails_only_on_one_period_witness :
  let one := to_frame "Date" "Pages" "Traffic"
               [RawRow 19723 (num 10) (num 100)] in
  let two := to_frame "Date" "Pages" "Traffic"
               [RawRow 19723 (num 10) (num 100);
                RawRow 19724 (num 12) (num 150)] in
  run "Date" "Pages" "Traffic" 3 one = Raise IndexError
  ∧ ∃ df sm report,
      run "Date" "Pages" "Traffic" 3 two = Ok (df, sm, report)
      ∧ length df = 2%nat.
Proof.
  intros one two.
  assert ("Pages" ∉ derived_columns 3) as Hpage by by_compute.
  assert ("Traffic" ∉ derived_columns 3) as Htraffic by by_compute.
  assert ("Date" ∉ derived_columns 3) as Hdate by by_compute.
  destruct (run_fails_only_on_one_period "Date" "Pages" "Traffic" 3
              Hpage Htraffic Hdate one [num 10] [num 100] [19723%Z])
    as [H1 _]; [reflexivity|reflexivity|reflexivity|].
  destruct (run_fails_only_on_one_period "Date" "Pages" "Traffic" 3
              Hpage Htraffic Hdate two [num 10; num 12] [num 100; num 150]
              [19723%Z; 19724%Z])
    as [_ H2]; [reflexivity|reflexivity|reflexivity|].
  split; [apply H1; reflexivity|apply H2; simpl; lia].
Defined.

Lemma first_segment_never_reported_witness :
  let rows := [RawRow 19723 (num 10) (num 100); RawRow 19724 (num 10) (num 150);
               RawRow 19725 (num 10) (num 200); RawRow 19726 (num 10) (num 120)] in
  let df0 := to_frame "Date" "Pages" "Traffic" rows in
  ∃ df sm report changes,
    run "Date" "Pages" "Traffic" 2 df0 = Ok (df, sm, report)
    ∧ ranking_state_changes df = Ok changes
    ∧ (length report < length changes)%nat.
Proof.
  intros rows df0.
  assert (match run "Date" "Pages" "Traffic" 2 df0 with
          | Ok _ => true
          | Raise _ => false
          end = true) as Hok by (vm_compute; reflexivity).
  destruct (run "Date" "Pages" "Traffic" 2 df0) as [[[df sm] report]|e]
    eqn:Hrun; [|discriminate Hok].
  assert ("Pages" ∉ derived_columns 2) as Hpage by by_compute.
  assert ("Traffic" ∉ derived_columns 2) as Htraffic by by_compute.
  assert ("Date" ∉ derived_columns 2) as Hdate by by_compute.
  destruct (first_segment_never_reported "Date" "Pages" "Traffic" 2
              Hpage Htraffic Hdate df0
              (r_pages <$> rows) (r_traffic <$> rows) (r_date <$> rows)
              df sm report)
    as (changes & r0 & Hch & _ & _ & _ & Hlt);
    [lia|reflexivity|reflexivity|reflexivity|discriminate|exact Hrun|].
  exists df, sm, report, changes. split; [exact eq_refl|].
  split; [exact Hch|exact Hlt].
Defined.

Lemma final_state_consistent_witness :
  let rows := [RawRow 19723 (num 10) (num 100); RawRow 19724 (num 10) (num 150);
               RawRow 19725 (num 10) (num 200); RawRow 19726 (num 10) (num 120)] in
  let df0 := to_frame "Date" "Pages" "Traffic" rows in
  ∃ df sm report changes iv rc,
    run "Date" "Pages" "Traffic" 1 df0 = Ok (df, sm, report)
    ∧ final_segment "Date" "Pages" 1 df changes = Ok (Some iv)
    ∧ changes !! (length changes - 1)%nat = Some rc
    ∧ get_label rc "Ranking State" = Ok (i_state iv).
Proof.
  intros rows df0.
  assert (match run "Date" "Pages" "Traffic" 1 df0 with
          | Ok (df, _, _) =>
              match ranking_state_changes df with
              | Ok changes =>
                  match final_segment "Date" "Pages" 1 df changes with
                  | Ok (Some _) => true
                  | _ => false
                  end
              | Raise _ => false
              end
          | Raise _ => false
          end = true) as Hok by (vm_compute; reflexivity).
  destruct (run "Date" "Pages" "Traffic" 1 df0) as [[[df sm] report]|e]
    eqn:Hrun; [|discriminate Hok].
  destruct (ranking_state_changes df) as [changes|e] eqn:Hch;
    [|discriminate Hok].
  destruct (final_segment "Date" "Pages" 1 df changes) as [[iv|]|e] eqn:Hfin;
    [|discriminate Hok|discriminate Hok].
  assert ("Pages" ∉ derived_columns 1) as Hpage by by_compute.
  assert ("Traffic" ∉ derived_columns 1) as Htraffic by by_compute.
  assert ("Date" ∉ derived_columns 1) as Hdate by by_compute.
  destruct (final_state_consistent "Date" "Pages" "Traffic" 1
              Hpage Htraffic Hdate df0
              (r_pages <$> rows) (r_traffic <$> rows) (r_date <$> rows)
              df sm report changes iv)
    as (rc & rlast & Hrc & _ & Hl & _);
    [reflexivity|reflexivity|reflexivity|exact Hrun|exact Hch|exact Hfin|].
  exists df, sm, report, changes, iv, rc. split; [exact eq_refl|].
  split; [exact Hfin|]. split; [exact Hrc|exact Hl].
Defined.

Lemma short_series_has_no_report_witness :
  let rows := [RawRow 19723 (num 10) (num 100); RawRow 19724 (num 12) (num 150);
               RawRow 19725 (num 12) (num 200)] in
  ∃ df neg,
    run "Date" "Pages" "Traffic" 3 (to_frame "Date" "Pages" "Traffic" rows)
    = Ok (df, Summary NaN neg, []).
Proof.
  intros rows.
  assert ("Pages" ∉ derived_columns 3) as Hpage by by_compute.
  assert ("Traffic" ∉ derived_columns 3) as Htraffic by by_compute.
  assert ("Date" ∉ derived_columns 3) as Hdate by by_compute.
  destruct (short_series_has_no_report "Date" "Pages" "Traffic" 3
              Hpage Htraffic Hdate (to_frame "Date" "Pages" "Traffic" rows)
              (r_pages <$> rows) (r_traffic <$> rows) (r_date <$> rows))
    as (df & neg & Hrun & _);
    [reflexivity|reflexivity|reflexivity|simpl; lia|simpl; lia|].
  exists df, neg. exact Hrun.
Defined.

(** *** The dates of the sentences *)

Lemma StronglySorted_sublist {A} (R : relation A) (l1 l2 : list A) :
  l1 `sublist_of` l2 → StronglySorted R l2 → StronglySorted R l1.
Proof.
  induction 1 as [|x l1 l2 Hsub IH|x l1 l2 Hsub IH]; intros Hs; [done| |].
  - apply StronglySorted_inv in Hs as [Hs Hall]. constructor; [by apply IH|].
    rewrite Forall_forall in Hall |- *. intros y Hy.
    by apply Hall, (sublist_subseteq _ _ Hsub).
  - apply StronglySorted_inv in Hs as [Hs _]. by apply IH.
Qed.

Lemma StronglySorted_lookup_lt (l : list Z) (i : nat) (a b : Z) :
  StronglySorted Z.lt l → l !! i = Some a → l !! S i = Some b → (a < b)%Z.
Proof.
  intros Hs. revert i. induction Hs as [|x l Hs IH Hall]; intros i Ha Hb;
    [done|].
  destruct i as [|i]; [|by eapply IH].
  injection Ha as ->. rewrite Forall_forall in Hall.
  by eapply Hall, list_elem_of_lookup_2.
Qed.

Lemma foldr_max_ge (s : Z) (ds : list Z) :
  (s ≤ foldr Z.max s ds)%Z ∧ ∀ x, x ∈ ds → (x ≤ foldr Z.max s ds)%Z.
Proof.
  induction ds as [|y ds [IH1 IH2]]; simpl.
  - split; [lia|]. by intros x ?%elem_of_nil.
  - split; [lia|]. intros x [->|Hx]%elem_of_cons; [lia|].
    specialize (IH2 _ Hx). lia.
Qed.

Lemma foldr_max_elem (s : Z) (ds : list Z) :
  foldr Z.max s ds = s ∨ foldr Z.max s ds ∈ ds.
Proof.
  induction ds as [|y ds IH]; simpl; [by left|].
  destruct (Z.max_spec y (foldr Z.max s ds)) as [[_ ->]|[_ ->]].
  - destruct IH as [?|?]; [by left|right; by right].
  - right; left.
Qed.

Lemma changed_rows_dates c prev states df d :
  date_column df c = Ok d →
  ∃ d', date_column (changed_rows prev states df) c = Ok d'
        ∧ d' `sublist_of` d.
Proof.
  revert prev states d; induction df as [|r df IH]; intros prev states d Hd.
  { destruct states; exists []; split; try done; apply sublist_nil_l. }
  apply column_with_cons_inv in Hd as (x & d0 & -> & Hx & Hd).
  destruct states as [|s states]; [exists []; split; [done|apply sublist_nil_l]|].
  cbn [changed_rows].
  destruct (IH (Some s) states _ Hd) as (d' & Hd' & Hsub).
  destruct (decide (prev = Some s)).
  - exists d'. split; [done|]. by apply sublist_cons.
  - exists (x :: d'). split; [by apply column_with_cons|by apply sublist_skip].
Qed.

Section SentenceDates.
Variables date_col page_col traffic_col : string.
Variable W : nat.
Hypothesis page_fresh : page_col ∉ derived_columns W.
Hypothesis traffic_fresh : traffic_col ∉ derived_columns W.
Hypothesis date_fresh : date_col ∉ derived_columns W.

Lemma interior_segment_dates changes i iv :
  interior_segment date_col page_col W changes i = Ok (Some iv) →
  ∃ ri rj de,
    changes !! i = Some ri ∧ changes !! S i = Some rj
    ∧ get_date ri date_col = Ok (i_start_date iv)
    ∧ get_date rj date_col = Ok de
    ∧ i_end_date iv = (de - 1)%Z.
Proof.
  unfold interior_segment. intros H. inv_bind H.
  destruct (negb (isna x4) && negb (isna x5)); [|done].
  inv_bind H. injection H as <-. simpl.
  exists x, x0, x3. repeat split; try done.
  - by apply iloc_nat.
  - by apply iloc_nat_succ.
Qed.

Lemma final_segment_dates df changes iv :
  final_segment date_col page_col W df changes = Ok (Some iv) →
  ∃ rc dates,
    changes !! (length changes - 1)%nat = Some rc
    ∧ get_date rc date_col = Ok (i_start_date iv)
    ∧ date_column df date_col = Ok dates
    ∧ i_end_date iv = foldr Z.max (i_start_date iv) dates.
Proof.
  unfold final_segment. intros H. inv_bind H.
  destruct (negb (isna x6) && negb (isna x0)); [|done].
  inv_bind H. injection H as <-. simpl.
  exists x3, x5. repeat split; try done. by apply iloc_last.
Qed.

(** X17 Every sentence of the report names a well-formed date range when
    the periods have distinct, increasing dates (as after the weekly or
    the monthly aggregation): it starts on the date of a period, does
    not end before it starts, and does not end after the last period.
    The last sentence ends on the latest date of the frame. *)
Theorem report_date_ranges
    (df0 : DataFrame) (p t : series) (d : list Z)
    (df : DataFrame) (sm : summary) (report : list interval) :
  column df0 page_col = Ok p → column df0 traffic_col = Ok t →
  date_column df0 date_col = Ok d →
  StronglySorted Z.lt d →
  run date_col page_col traffic_col W df0 = Ok (df, sm, report) →
  Forall (λ iv, (i_start_date iv ≤ i_end_date iv)%Z
                ∧ i_start_date iv ∈ d
                ∧ ∃ x, x ∈ d ∧ (i_end_date iv ≤ x)%Z) report.
Proof.
  intros Hp Ht Hd Hsorted Hrun. unfold run in Hrun. inv_bind Hrun.
  destruct x as [df1 sm1]. inv_bind Hrun. destruct x as [df2 report2].
  injection Hrun as -> -> ->.
  destruct (analyze_analysed _ _ _ _ page_fresh traffic_fresh date_fresh
              _ _ _ _ _ _ Hp Ht Hd Hx) as [Han Hlen].
  destruct (report_outcomes _ _ _ _ _ _ _ _ _ _ Han Hx0)
    as (-> & changes & outcomes & Hch & Hlo & -> & Hsub & Hout).
  pose proof (an_dates _ _ _ _ _ _ _ _ Han) as Hdates.
  assert (∃ d', date_column changes date_col = Ok d' ∧ d' `sublist_of` d)
    as (d' & Hd' & Hsubd).
  { unfold ranking_state_changes in Hch. inv_bind Hch. injection Hch as <-.
    by apply changed_rows_dates. }
  pose proof (StronglySorted_sublist _ _ _ Hsubd Hsorted) as Hsorted'.
  apply Forall_forall. intros iv Hiv.
  apply list_elem_of_omap in Hiv as (o & Ho & Hoiv). simpl in Hoiv. subst o.
  apply list_elem_of_lookup in Ho as [i Hi].
  destruct (Hout _ _ Hi) as [[Hlt Hseg]|[Heq Hseg]].
  - apply interior_segment_dates in Hseg
      as (ri & rj & de & Hri & Hrj & Hs & He & ->).
    destruct (column_with_lookup _ _ _ _ _ _ Hd' Hri) as (a & Ha & Hga).
    destruct (column_with_lookup _ _ _ _ _ _ Hd' Hrj) as (b & Hb & Hgb).
    rewrite Hs in Hga. injection Hga as <-.
    rewrite He in Hgb. injection Hgb as <-.
    pose proof (StronglySorted_lookup_lt _ _ _ _ Hsorted' Ha Hb).
    split; [lia|]. split.
    + by eapply (sublist_subseteq _ _ Hsubd), list_elem_of_lookup_2.
    + exists de. split; [|lia].
      by eapply (sublist_subseteq _ _ Hsubd), list_elem_of_lookup_2.
  - apply final_segment_dates in Hseg as (rc & dates & Hrc & Hs & Hds & ->).
    rewrite Hdates in Hds. injection Hds as <-.
    destruct (column_with_lookup _ _ _ _ _ _ Hd' Hrc) as (a & Ha & Hga).
    rewrite Hs in Hga. injection Hga as <-.
    assert (i_start_date iv ∈ d) as Hin
      by (by eapply (sublist_subseteq _ _ Hsubd), list_elem_of_lookup_2).
    destruct (foldr_max_ge (i_start_date iv) d) as [Hge _].
    split; [done|]. split; [done|].
    exists (foldr Z.max (i_start_date iv) d). split; [|lia].
    destruct (foldr_max_elem (i_start_date iv) d) as [->|?]; done.
Qed.

End SentenceDates.

Lemma report_date_ranges_witness :
  let rows := [RawRow 19723 (num 10) (num 100); RawRow 19730 (num 10) (num 150);
               RawRow 19737 (num 10) (num 200); RawRow 19744 (num 10) (num 120)] in
  let df0 := to_frame "Date" "Pages" "Traffic" rows in
  ∃ df sm report,
    run "Date" "Pages" "Traffic" 1 df0 = Ok (df, sm, report)
    ∧ report ≠ []
    ∧ Forall (λ iv, (i_start_date iv ≤ i_end_date iv)%Z) report.
Proof.
  intros rows df0.
  assert (match run "Date" "Pages" "Traffic" 1 df0 with
          | Ok (_, _, _ :: _) => true
          | _ => false
          end = true) as Hok by (vm_compute; reflexivity).
  destruct (run "Date" "Pages" "Traffic" 1 df0) as [[[df sm] report]|e]
    eqn:Hrun; [|discriminate Hok].
  assert ("Pages" ∉ derived_columns 1) as Hpage by by_compute.
  assert ("Traffic" ∉ derived_columns 1) as Htraffic by by_compute.
  assert ("Date" ∉ derived_columns 1) as Hdate by by_compute.
  pose proof (report_date_ranges "Date" "Pages" "Traffic" 1
                Hpage Htraffic Hdate df0
                (r_pages <$> rows) (r_traffic <$> rows) (r_date <$> rows)
                df sm report) as H.
  exists df, sm, report. split; [exact eq_refl|].
  split; [destruct report; [discriminate Hok|discriminate]|].
  eapply Forall_impl; [apply H|].
  - reflexivity.
  - reflexivity.
  - reflexivity.
  - repeat constructor.
  - exact Hrun.
  - intros iv (Hle & _). exact Hle.
Defined.

(** Without distinct dates the range of a sentence can be empty: two
    daily rows of one date that differ in state give a sentence that
    ends the day before it starts. *)
Example same_date_rows_give_empty_range :
  let rows := [RawRow 19723 (num 10) (num 100); RawRow 19723 (num 10) (num 150);
               RawRow 19724 (num 10) (num 120)] in
  match run "Date" "Pages" "Traffic" 1
          (to_frame "Date" "Pages" "Traffic" rows) with
  | Ok (_, _, report) =>
      Some ((λ iv, (i_start_date iv, i_end_date iv)) <$> report)
  | Raise _ => None
  end
  = Some [(19723, 19722); (19723, 19723); (19724, 19724)]%Z.
Proof. by_compute. Qed.
